(** * Weight-scatter diagnostic of the AS 209 walkthrough

    A shallow embedding of the helper functions of
    [docs/tutorials/rescale_AS209_weights.py]:
    [get_scatter_datadescid], [gaussian], [scatter_hist] and
    [plot_histogram_datadescid], and of the table probe of lines
    118-128.

    - numpy arrays are nested lists, outermost axis first.  A nested
      list need not be rectangular and an axis of length zero hides
      the extents below it; the results that depend on shapes are
      stated for columns of the shapes of the data model ([wf_query]).
    - Python exceptions are values of [exn]; a computation returns
      [Ret] or [Raise].
    - The CASA tools are interfaces ([MsTool], [TbTool]): every call
      acts on the state of the tool and may raise.
    - The arithmetic of [float64] and [complex128] is an interface,
      [NumOps].  The results about flags, shapes, errors and the store
      hold for every implementation of it; the numeric results are
      proved for the instance [RNum] of real and complex numbers, that
      is, up to rounding.  They assume strictly positive weights, where
      no division by zero occurs. *)

From Stdlib Require Import String ZArith Bool Arith Lia.
From Stdlib Require Import QArith Qreals Reals Machin Lra.
From Stdlib Require Import DecimalString.
From Stdlib Require DecimalPos DecimalZ.
From Stdlib Require Import List.
Import ListNotations.

Open Scope string_scope.
Open Scope nat_scope.
Open Scope list_scope.

Set Implicit Arguments.

(** ** Exceptions and outcomes *)

Inductive exn_kind : Type :=
| AssertionError
| ValueError
| IndexError
| RuntimeError.

Definition exn_kind_eqb (a b : exn_kind) : bool :=
  match a, b with
  | AssertionError, AssertionError
  | ValueError, ValueError
  | IndexError, IndexError
  | RuntimeError, RuntimeError => true
  | _, _ => false
  end.

Record exn : Type := Exn { exn_kind_of : exn_kind; exn_msg : string }.

Inductive outcome (A : Type) : Type :=
| Ret (a : A)
| Raise (e : exn).

Arguments Ret {A} a.
Arguments Raise {A} e.

Definition obind {A B : Type} (c : outcome A) (k : A -> outcome B) : outcome B :=
  match c with
  | Ret a => k a
  | Raise e => Raise e
  end.

Declare Scope outcome_scope.
Delimit Scope outcome_scope with outcome.
Notation "'try' x <- c ; k" := (obind c (fun x => k))
  (at level 10, x pattern, c at level 100, k at level 200) : outcome_scope.
Notation "'check' c ; k" := (obind c (fun _ => k))
  (at level 10, c at level 100, k at level 200) : outcome_scope.

(** A computation over a mutable world [W]: the final world is kept
    when an exception propagates, since effects performed before a
    [raise] are not undone. *)
Definition M (W A : Type) : Type := W -> outcome A * W.

Definition ret {W A : Type} (a : A) : M W A := fun w => (Ret a, w).

Definition bind {W A B : Type} (c : M W A) (k : A -> M W B) : M W B :=
  fun w =>
    match c w with
    | (Ret a, w') => k a w'
    | (Raise e, w') => (Raise e, w')
    end.

Definition lift {W A : Type} (c : outcome A) : M W A := fun w => (c, w).

Declare Scope prog_scope.
Delimit Scope prog_scope with prog.
Notation "'run' x <- c ; k" := (bind c (fun x => k))
  (at level 10, x pattern, c at level 100, k at level 200) : prog_scope.
Notation "'exec' c ; k" := (bind c (fun _ => k))
  (at level 10, c at level 100, k at level 200) : prog_scope.

(** ** numpy arrays as nested lists *)

Section Broadcast.
Context {A B C : Type}.

Local Open Scope outcome_scope.

Fixpoint mapM (f : A -> outcome C) (xs : list A) : outcome (list C) :=
  match xs with
  | [] => Ret []
  | x :: xs' => try y <- f x; try ys <- mapM f xs'; Ret (y :: ys)
  end.

(** Pairwise combination of two axes of equal length. *)
Fixpoint zipM (f : A -> B -> outcome C) (xs : list A) (ys : list B)
  : outcome (list C) :=
  match xs, ys with
  | x :: xs', y :: ys' =>
      try z <- f x y; try zs <- zipM f xs' ys'; Ret (z :: zs)
  | _, _ => Ret []
  end.

End Broadcast.

Definition broadcast_error : exn :=
  Exn ValueError "operands could not be broadcast together".

(** One axis of numpy's broadcasting rule: equal lengths combine
    pairwise, an axis of length one is stretched, anything else is a
    [ValueError]. *)
Definition broadcast {A B C : Type} (f : A -> B -> outcome C)
    (xs : list A) (ys : list B) : outcome (list C) :=
  if Nat.eqb (length xs) (length ys) then zipM f xs ys
  else match xs, ys with
       | [x], _ => mapM (f x) ys
       | _, [y] => mapM (fun x => f x y) xs
       | _, _ => Raise broadcast_error
       end.

(** A binary ufunc on two three-dimensional arrays. *)
Definition elementwise3 {A B C : Type} (f : A -> B -> C)
    (a : list (list (list A))) (b : list (list (list B)))
  : outcome (list (list (list C))) :=
  broadcast (broadcast (broadcast (fun x y => Ret (f x y)))) a b.

(** [a[:, np.newaxis, :]] for a two-dimensional [a]. *)
Definition newaxis1 {A : Type} (a : list (list A)) : list (list (list A)) :=
  map (fun row => [row]) a.

(** [x, y = a]: iteration over the first axis, exactly two items. *)
Definition unpack2 {A : Type} (a : list A) : outcome (A * A) :=
  match a with
  | [x; y] => Ret (x, y)
  | _ :: _ :: _ :: _ =>
      Raise (Exn ValueError "too many values to unpack (expected 2)")
  | [_] =>
      Raise (Exn ValueError "not enough values to unpack (expected 2, got 1)")
  | [] =>
      Raise (Exn ValueError "not enough values to unpack (expected 2, got 0)")
  end.

Definition mask_error : exn :=
  Exn IndexError "boolean index did not match indexed array".

Section BoolIndex.
Context {A : Type}.

Local Open Scope outcome_scope.

(** Entries of one row kept by a mask of the same length. *)
Fixpoint mask_row (row : list A) (m : list bool) : outcome (list A) :=
  match row, m with
  | [], [] => Ret []
  | x :: row', b :: m' =>
      try rest <- mask_row row' m';
      Ret (if b then x :: rest else rest)
  | _, _ => Raise mask_error
  end.

(** [a[mask]] for a two-dimensional [a] and a boolean [mask] of the
    same shape: the selected entries as a one-dimensional array. *)
Fixpoint bool_index (a : list (list A)) (mask : list (list bool))
  : outcome (list A) :=
  match a, mask with
  | [], [] => Ret []
  | row :: a', m :: mask' =>
      try xs <- mask_row row m;
      try ys <- bool_index a' mask';
      Ret (xs ++ ys)
  | _, _ => Raise mask_error
  end.

End BoolIndex.

(** [~flag] *)
Definition invert (flag : list (list bool)) : list (list bool) :=
  map (map negb) flag.

(** The arrays a call can return: one-dimensional after masking,
    two-dimensional otherwise. *)
Inductive ndarray (A : Type) : Type :=
| Arr1 (v : list A)
| Arr2 (m : list (list A)).

Arguments Arr1 {A} v.
Arguments Arr2 {A} m.

(** [a.flatten()]: a one-dimensional copy in row-major order. *)
Definition flatten {A : Type} (a : ndarray A) : list A :=
  match a with
  | Arr1 v => v
  | Arr2 m => concat m
  end.

(** ** Scalar arithmetic *)

(** The operations the script applies to [float64] values ([F]) and to
    [complex128] values ([K]). *)
Class NumOps (F K : Type) : Type := {
  f_of_Z : Z -> F;
  f_of_Q : Q -> F;
  f_pi : F;
  f_add : F -> F -> F;
  f_mul : F -> F -> F;
  f_div : F -> F -> F;
  f_pow : F -> nat -> F;
  f_sqrt : F -> F;
  f_exp : F -> F;
  k_sub : K -> K -> K;
  k_div_f : K -> F -> K;
  k_real : K -> F;
  k_imag : K -> F
}.

(** ** The measurement-set tool *)

(** The mapping returned by [ms.getdata], restricted to the four keys
    the script reads: [data], [model_data] and [flag] are indexed by
    polarization, channel and sample, [weight] by polarization and
    sample. *)
Record Query (F K : Type) : Type := {
  q_data : list (list (list K));
  q_model_data : list (list (list K));
  q_weight : list (list F);
  q_flag : list (list (list bool))
}.

(** The CASA [ms] tool, a module-level object of the script: every
    call may raise and may change the tool's state [T]. *)
Class MsTool (T F K : Type) : Type := {
  ms_open : string -> M T unit;
  ms_selectinit : Z -> M T unit;
  ms_selectinit_reset : M T unit;
  ms_getdata : list string -> M T (Query F K);
  ms_close : M T unit;
  ms_is_open : T -> bool;
  ms_has_selection : T -> bool
}.

(** What the script relies on when it calls [selectinit(reset=True)]
    and [close()]. *)
Class MsToolLaws {T F K : Type} (tool : MsTool T F K) : Prop := {
  reset_clears : forall t t',
    ms_selectinit_reset t = (Ret tt, t') -> ms_has_selection t' = false;
  close_closes : forall t t',
    ms_close t = (Ret tt, t') -> ms_is_open t' = false;
  close_keeps_selection : forall t t',
    ms_close t = (Ret tt, t') -> ms_has_selection t' = ms_has_selection t
}.

Definition fname : string := "AS209_continuum.ms".

Definition py_assert (b : bool) (msg : string) : outcome unit :=
  if b then Ret tt else Raise (Exn AssertionError msg).

Definition model_data_empty : string :=
  "MODEL_DATA column empty, retry tclean with savemodel='modelcolumn'".

(** The error the specification calls MissingModelData: the failed
    assertion of lines 222-224. *)
Definition MissingModelData : exn := Exn AssertionError model_data_empty.

(** ** The table tool and the probe of lines 118-128 *)

(** A column read by [tb.getcol]. *)
Inductive column (F K : Type) : Type :=
| ColF (a : list (list F))
| ColB (a : list (list (list bool)))
| ColK (a : list (list (list K))).

Class TbTool (B F K : Type) : Type := {
  tb_open : string -> M B unit;
  tb_getcol : string -> M B (column F K);
  tb_close : M B unit;
  tb_is_open : B -> bool
}.

(** [tb.close()] returns and leaves the table closed. *)
Class TbToolLaws {B F K : Type} (tb : TbTool B F K) : Prop := {
  tb_close_closes : forall b,
    exists b', tb_close b = (Ret tt, b') /\ tb_is_open b' = false
}.

(** The table tool and the standard output. *)
Record probe_world (B : Type) : Type := {
  pw_tb : B;
  pw_stdout : list string
}.

Definition on_tb {B A : Type} (c : M B A) : M (probe_world B) A :=
  fun w =>
    let (r, b') := c (pw_tb w) in
    (r, {| pw_tb := b'; pw_stdout := pw_stdout w |}).

Definition print {B : Type} (line : string) : M (probe_world B) unit :=
  fun w =>
    (Ret tt, {| pw_tb := pw_tb w; pw_stdout := pw_stdout w ++ [line] |}).

(** [try: body except kind: handler finally: final] *)
Definition try_except_finally {W : Type} (body : M W unit) (kind : exn_kind)
    (handler : M W unit) (final : M W unit) : M W unit :=
  fun w =>
    let (r1, w1) := body w in
    let (r2, w2) :=
      match r1 with
      | Ret a => (Ret a, w1)
      | Raise e =>
          if exn_kind_eqb (exn_kind_of e) kind then handler w1
          else (Raise e, w1)
      end in
    match final w2 with
    | (Ret _, w3) => (r2, w3)
    | (Raise e, w3) => (Raise e, w3)
    end.

(** ** Figures *)

Record axes (F : Type) : Type := {
  ax_hist : list F;
  ax_bins : nat;
  ax_density : bool;
  ax_log : bool;
  ax_xlabel : string;
  ax_line : list (F * F)
}.

Record figure (F : Type) : Type := {
  fig_figsize : Z * Z;
  fig_axes : list (axes F);
  fig_suptitle : option string
}.

(** The tool together with pyplot's registry of figures. *)
Record world (T F : Type) : Type := {
  w_ms : T;
  w_figures : list (figure F)
}.

Definition on_ms {T F A : Type} (c : M T A) : M (world T F) A :=
  fun w =>
    let (r, t') := c (w_ms w) in
    (r, {| w_ms := t'; w_figures := w_figures w |}).

(** [plt.subplots]: a new figure, handed out by its position in the
    registry. *)
Definition new_figure {T F : Type} (fig : figure F) : M (world T F) nat :=
  fun w =>
    (Ret (List.length (w_figures w)),
     {| w_ms := w_ms w; w_figures := w_figures w ++ [fig] |}).

Fixpoint update_nth {A : Type} (n : nat) (f : A -> A) (l : list A) : list A :=
  match n, l with
  | _, [] => []
  | O, x :: l' => f x :: l'
  | S n', x :: l' => x :: update_nth n' f l'
  end.

(** [fig.suptitle(text)] *)
Definition suptitle {T F : Type} (fig : nat) (text : string)
  : M (world T F) unit :=
  fun w =>
    (Ret tt,
     {| w_ms := w_ms w;
        w_figures :=
          update_nth fig
            (fun g => {| fig_figsize := fig_figsize g;
                         fig_axes := fig_axes g;
                         fig_suptitle := Some text |})
            (w_figures w) |}).

(** ["{:}".format(n)] for an integer [n] *)
Definition format_int (n : Z) : string :=
  NilZero.string_of_int (Z.to_int n).

(** ** The helper functions of the script *)

Section Script.
Context {T F K : Type} {num : NumOps F K} {tool : MsTool T F K}.

(** Lines 206-213: open the measurement set, select the spectral
    window, read the columns, reset the selection, close. *)
Definition fetch_columns (datadescid : Z) : M T (Query F K) :=
  (exec ms_open fname;
   exec ms_selectinit datadescid;
   run query <- ms_getdata
     ["DATA"; "MODEL_DATA"; "WEIGHT"; "UVW"; "ANTENNA1"; "ANTENNA2"; "FLAG"];
   exec ms_selectinit_reset;
   exec ms_close;
   ret query)%prog.

(** Lines 230-231: [sigma = np.sqrt(1 / weight)], then
    [sigma *= sigma_rescale]. *)
Definition sigma_of (weight : list (list F)) (sigma_rescale : F)
  : list (list F) :=
  let sigma := map (map (fun w => f_sqrt (f_div (f_of_Z 1) w))) weight in
  map (map (fun s => f_mul s sigma_rescale)) sigma.

(** Lines 215-245, on the columns that were read. *)
Definition scatter_of_query (query : Query F K) (sigma_rescale : F)
    (apply_flags : bool) : outcome (ndarray K * ndarray K) :=
  (let data := q_data query in
   let model_data := q_model_data query in
   let weight := q_weight query in
   let flag := q_flag query in
   check py_assert (0 <? List.length model_data) model_data_empty;
   try residuals <- elementwise3 k_sub data model_data;
   let sigma := sigma_of weight sigma_rescale in
   try scatter <- elementwise3 k_div_f residuals (newaxis1 sigma);
   try (scatter_XX, scatter_YY) <- unpack2 scatter;
   try (flag_XX, flag_YY) <- unpack2 flag;
   if apply_flags then
     try scatter_XX <- bool_index scatter_XX (invert flag_XX);
     try scatter_YY <- bool_index scatter_YY (invert flag_YY);
     Ret (Arr1 scatter_XX, Arr1 scatter_YY)
   else
     Ret (Arr2 scatter_XX, Arr2 scatter_YY))%outcome.

Definition get_scatter_datadescid (datadescid : Z) (sigma_rescale : F)
    (apply_flags : bool) : M T (ndarray K * ndarray K) :=
  (run query <- fetch_columns datadescid;
   lift (scatter_of_query query sigma_rescale apply_flags))%prog.

(** Line 264 *)
Definition gaussian (x : F) : F :=
  f_mul (f_div (f_of_Z 1) (f_sqrt (f_mul (f_of_Z 2) f_pi)))
        (f_exp (f_mul (f_of_Q (-1 # 2)) (f_pow x 2))).

(** [np.linspace(-5, 5)]: fifty points, the last one the end point. *)
Definition linspace_m5_5 : list F :=
  map (fun i => f_add (f_mul (f_of_Z (Z.of_nat i))
                             (f_div (f_of_Z 10) (f_of_Z 49)))
                      (f_of_Z (-5)))
      (seq 0 49)
  ++ [f_of_Z 5].

Definition panel (samples : list F) (bins : nat) (log : bool)
    (xlabel : string) : axes F :=
  {| ax_hist := samples; ax_bins := bins; ax_density := true;
     ax_log := log; ax_xlabel := xlabel;
     ax_line := map (fun x => (x, gaussian x)) linspace_m5_5 |}.

(** Lines 267-308; the keyword arguments are [figsize] and [bins].
    The spacing set by [fig.subplots_adjust] is not recorded. *)
Definition scatter_hist (scatter_XX scatter_YY : list K) (log : bool)
    (figsize : option (Z * Z)) (bins : option nat) : M (world T F) nat :=
  let figsize := match figsize with Some s => s | None => (6, 6)%Z end in
  let bins := match bins with Some b => b | None => 40 end in
  new_figure
    {| fig_figsize := figsize;
       fig_axes :=
         [ panel (map k_real scatter_XX) bins log
             "$\Re \{ V_\mathrm{XX} - \bar{V}_\mathrm{XX} \} / \sigma_\mathrm{XX}$";
           panel (map k_imag scatter_XX) bins log
             "$\Im \{ V_\mathrm{XX} - \bar{V}_\mathrm{XX} \} / \sigma_\mathrm{XX}$";
           panel (map k_real scatter_YY) bins log
             "$\Re \{ V_\mathrm{YY} - \bar{V}_\mathrm{YY} \} / \sigma_\mathrm{YY}$";
           panel (map k_imag scatter_YY) bins log
             "$\Im \{ V_\mathrm{YY} - \bar{V}_\mathrm{YY} \} / \sigma_\mathrm{YY}$" ];
       fig_suptitle := None |}.

(** Lines 311-335; the function has no [return] statement. *)
Definition plot_histogram_datadescid (datadescid : Z) (sigma_rescale : F)
    (log : bool) (apply_flags : bool) : M (world T F) unit :=
  (run (scatter_XX, scatter_YY) <-
     on_ms (get_scatter_datadescid datadescid sigma_rescale apply_flags);
   let scatter_XX := flatten scatter_XX in
   let scatter_YY := flatten scatter_YY in
   run fig <- scatter_hist scatter_XX scatter_YY log None None;
   suptitle fig ("DATA_DESC_ID: " ++ format_int datadescid))%prog.

End Script.

Section Probe.
Context {B F K : Type} {tb : TbTool B F K}.

(** Lines 118-128; the three columns are bound to module-level names
    that are not followed here. *)
Definition probe_table : M (probe_world B) unit :=
  try_except_finally
    (exec on_tb (tb_open fname);
     run weight <- on_tb (tb_getcol "WEIGHT");
     run flag <- on_tb (tb_getcol "FLAG");
     run data <- on_tb (tb_getcol "DATA");
     ret tt)%prog
    RuntimeError
    (print
       "We can't use table tools here... the spws have different numbers of channels")
    (on_tb tb_close).

End Probe.

(** ** Exact arithmetic: real and complex numbers *)

Record C : Type := mkC { Re : R; Im : R }.

Definition RtoC (x : R) : C := mkC x 0.

Definition Cminus (z w : C) : C :=
  mkC (Re z - Re w) (Im z - Im w).

Definition Cmult (z w : C) : C :=
  mkC (Re z * Re w - Im z * Im w) (Re z * Im w + Im z * Re w).

Definition Cdiv (z w : C) : C :=
  let d := (Re w * Re w + Im w * Im w)%R in
  mkC ((Re z * Re w + Im z * Im w) / d) ((Im z * Re w - Re z * Im w) / d).

(** A real operand of a complex operation is promoted to a complex
    number with imaginary part zero. *)
#[export] Instance RNum : NumOps R C := {
  f_of_Z := IZR;
  f_of_Q := Q2R;
  f_pi := PI;
  f_add := Rplus;
  f_mul := Rmult;
  f_div := Rdiv;
  f_pow := pow;
  f_sqrt := sqrt;
  f_exp := exp;
  k_sub := Cminus;
  k_div_f := fun z s => Cdiv z (RtoC s);
    k_real := Re;
  k_imag := Im
}.

(** ** A measurement set held in memory *)

(** A tool over a table of partitions: selecting a partition that does
    not exist, or reading without a selection, raises [RuntimeError]. *)
Record sim_ms : Type := { sim_opened : bool; sim_selected : option Z }.

Definition sim_closed : sim_ms :=
  {| sim_opened := false; sim_selected := None |}.

Section SimTool.
Context {F K : Type}.
Variable table : Z -> option (Query F K).

Definition sim_open (_ : string) : M sim_ms unit :=
  fun t => (Ret tt, {| sim_opened := true; sim_selected := sim_selected t |}).

Definition sim_selectinit (d : Z) : M sim_ms unit :=
  fun t =>
    match sim_opened t, table d with
    | true, Some _ =>
        (Ret tt, {| sim_opened := true; sim_selected := Some d |})
    | _, _ => (Raise (Exn RuntimeError "selectinit failed"), t)
    end.

Definition sim_selectinit_reset : M sim_ms unit :=
  fun t => (Ret tt, {| sim_opened := sim_opened t; sim_selected := None |}).

Definition sim_getdata (_ : list string) : M sim_ms (Query F K) :=
  fun t =>
    match sim_opened t, sim_selected t with
    | true, Some d =>
        match table d with
        | Some q => (Ret q, t)
        | None => (Raise (Exn RuntimeError "getdata failed"), t)
        end
    | _, _ => (Raise (Exn RuntimeError "getdata failed"), t)
    end.

Definition sim_close : M sim_ms unit :=
  fun t => (Ret tt, {| sim_opened := false; sim_selected := sim_selected t |}).

Definition SimMs : MsTool sim_ms F K := {|
  ms_open := sim_open;
  ms_selectinit := sim_selectinit;
  ms_selectinit_reset := sim_selectinit_reset;
  ms_getdata := sim_getdata;
  ms_close := sim_close;
  ms_is_open := sim_opened;
  ms_has_selection := fun t =>
    match sim_selected t with Some _ => true | None => false end
|}.

End SimTool.

(** ** Shapes and specification-level functions *)

Fixpoint map2 {A B C : Type} (f : A -> B -> C) (xs : list A) (ys : list B)
  : list C :=
  match xs, ys with
  | x :: xs', y :: ys' => f x y :: map2 f xs' ys'
  | _, _ => []
  end.

(** [a] is a two-dimensional array with [c] rows of [n] entries. *)
Definition has_shape2 {A : Type} (c n : nat) (a : list (list A)) : bool :=
  (List.length a =? c) && forallb (fun row => List.length row =? n) a.

Definition has_shape3 {A : Type} (p c n : nat) (a : list (list (list A)))
  : bool :=
  (List.length a =? p) && forallb (has_shape2 c n) a.

(** The invariant of the data model: two polarizations, [data],
    [model_data] and [flag] of one shape, [weight] without the channel
    axis. *)
Definition wf_query {F K : Type} (c n : nat) (q : Query F K) : bool :=
  has_shape3 2 c n (q_data q) && has_shape3 2 c n (q_model_data q)
  && has_shape2 2 n (q_weight q) && has_shape3 2 c n (q_flag q).

(** The entries of [xs] at which [keep] holds, in the order of [xs]. *)
Definition select {A : Type} (xs : list A) (keep : list bool) : list A :=
  map fst (filter snd (combine xs keep)).

Definition count_false (flags : list bool) : nat :=
  List.length (filter negb flags).

Definition all_false2 (flag : list (list bool)) : bool :=
  forallb (forallb negb) flag.

Definition all_true2 (flag : list (list bool)) : bool :=
  forallb (forallb (fun b => b)) flag.

(** The flag array of one polarization, [nth 0] for XX and [nth 1] for
    YY. *)
Definition flag_pol {F K : Type} (q : Query F K) (p : nat) : list (list bool) :=
  nth p (q_flag q) [].

Section SpecScatter.
Context {F K : Type} {num : NumOps F K}.

(** Following the specification, steps 2 to 4, for one polarization:
    the residual [data - model_data] of every channel and sample,
    divided by [sqrt(1 / weight) * rescale] of that sample. *)
Definition spec_scatter_pol (rescale : F) (data model_data : list (list K))
    (weight : list F) : list (list K) :=
  map2 (fun drow mrow =>
          map2 (fun residual w =>
                  k_div_f residual
                          (f_mul (f_sqrt (f_div (f_of_Z 1) w)) rescale))
               (map2 k_sub drow mrow) weight)
       data model_data.

Definition spec_scatter (rescale : F) (q : Query F K) (p : nat)
  : list (list K) :=
  spec_scatter_pol rescale (nth p (q_data q) []) (nth p (q_model_data q) [])
                   (nth p (q_weight q) []).

End SpecScatter.

(** ** The synthetic window of the end-to-end scenario *)

Definition example_query : Query R C := {|
  q_data := [ [ [RtoC 2; RtoC 0; RtoC (-2)] ];
              [ [RtoC 4; RtoC 0; RtoC (-4)] ] ];
  q_model_data := [ [ [RtoC 0; RtoC 0; RtoC 0] ];
                    [ [RtoC 0; RtoC 0; RtoC 0] ] ];
  q_weight := [ [1; 1; 1]; [4; 4; 4] ]%R;
  q_flag := [ [ [false; false; false] ]; [ [false; false; false] ] ]
|}.

Definition example_table (d : Z) : option (Query R C) :=
  if (d =? 0)%Z then Some example_query else None.

(** A window whose model column was never written. *)
Definition unmodelled_query : Query R C := {|
  q_data := q_data example_query;
  q_model_data := [];
  q_weight := q_weight example_query;
  q_flag := q_flag example_query
|}.

(** A window with polarization XX flagged throughout and one flagged
    sample in YY. *)
Definition flagged_query : Query R C := {|
  q_data := q_data example_query;
  q_model_data := q_model_data example_query;
  q_weight := q_weight example_query;
  q_flag := [ [ [true; true; true] ]; [ [false; true; false] ] ]
|}.

Definition unmodelled_table (d : Z) : option (Query R C) :=
  if (d =? 0)%Z then Some unmodelled_query else None.

Definition flagged_table (d : Z) : option (Query R C) :=
  if (d =? 0)%Z then Some flagged_query else None.

(** Application of [f] to every entry of a returned array. *)
Definition ndmap {A B : Type} (f : A -> B) (a : ndarray A) : ndarray B :=
  match a with
  | Arr1 v => Arr1 (map f v)
  | Arr2 m => Arr2 (map (map f) m)
  end.

Definition empty_world : world sim_ms R :=
  {| w_ms := sim_closed; w_figures := [] |}.

(** ** Columns of other shapes *)

(** Columns of [p] polarizations, [c] channels and [n] samples. *)
Definition wf_columns {F K : Type} (p c n : nat) (q : Query F K) : bool :=
  has_shape3 p c n (q_data q) && has_shape3 p c n (q_model_data q)
  && has_shape2 p n (q_weight q) && has_shape3 p c n (q_flag q).

(** The invariant of the data model on [data], [model_data] and
    [weight] alone, with [flag] left free. *)
Definition wf_visibilities {F K : Type} (c n : nat) (q : Query F K) : bool :=
  has_shape3 2 c n (q_data q) && has_shape3 2 c n (q_model_data q)
  && has_shape2 2 n (q_weight q).

Definition with_flag {F K : Type} (q : Query F K)
    (flag : list (list (list bool))) : Query F K :=
  {| q_data := q_data q; q_model_data := q_model_data q;
     q_weight := q_weight q; q_flag := flag |}.

Definition with_weight {F K : Type} (q : Query F K) (weight : list (list F))
  : Query F K :=
  {| q_data := q_data q; q_model_data := q_model_data q;
     q_weight := weight; q_flag := q_flag q |}.

(** A measurement set with the single window 0. *)
Definition single_table {F K : Type} (q : Query F K) (d : Z)
  : option (Query F K) :=
  if (d =? 0)%Z then Some q else None.

(** A window with all four correlations, one channel, one sample. *)
Definition four_pol_query : Query R C := {|
  q_data := [ [ [RtoC 1] ]; [ [RtoC 1] ]; [ [RtoC 1] ]; [ [RtoC 1] ] ];
  q_model_data := [ [ [RtoC 0] ]; [ [RtoC 0] ]; [ [RtoC 0] ]; [ [RtoC 0] ] ];
  q_weight := [ [1]; [1]; [1]; [1] ]%R;
  q_flag := [ [ [false] ]; [ [false] ]; [ [false] ]; [ [false] ] ]
|}.

(** The synthetic window with a flag column of three planes. *)
Definition three_flag_query : Query R C :=
  with_flag example_query
    [ [ [false; false; false] ]; [ [false; false; false] ];
      [ [false; false; false] ] ].

(** The synthetic window with flags of two samples instead of three
    for polarization YY. *)
Definition misflagged_query : Query R C :=
  with_flag example_query [ [ [false; false; false] ]; [ [false; false] ] ].

(** The synthetic window with a model equal to the data. *)
Definition perfect_query : Query R C :=
  {| q_data := q_data example_query; q_model_data := q_data example_query;
     q_weight := q_weight example_query; q_flag := q_flag flagged_query |}.

(** ** A table held in memory *)

Record sim_tb : Type := { simtb_opened : bool }.

Section SimTable.
Context {F K : Type}.
Variable columns : string -> outcome (column F K).

Definition SimTb : TbTool sim_tb F K := {|
  tb_open := fun _ _ => (Ret tt, {| simtb_opened := true |});
  tb_getcol := fun name b => (columns name, b);
  tb_close := fun _ => (Ret tt, {| simtb_opened := false |});
  tb_is_open := simtb_opened
|}.

End SimTable.

(** The main table of a measurement set whose windows differ in their
    number of channels: a uniform read of a column fails. *)
Definition heterogeneous_columns (name : string) : outcome (column R C) :=
  Raise (Exn RuntimeError "TSM: no array in row 0").

(** A table that cannot be read for another reason. *)
Definition broken_columns (name : string) : outcome (column R C) :=
  Raise (Exn ValueError "unexpected").

Definition probe_start : probe_world sim_tb :=
  {| pw_tb := {| simtb_opened := false |}; pw_stdout := [] |}.

Definition probe_message : string :=
  "We can't use table tools here... the spws have different numbers of channels".

Section ProbeBlocks.
Context {B F K : Type} {tb : TbTool B F K}.

(** The [try] block of the probe, lines 119-122. *)
Definition probe_try_block : M (probe_world B) unit :=
  (exec on_tb (tb_open fname);
   run weight <- on_tb (tb_getcol "WEIGHT");
   run flag <- on_tb (tb_getcol "FLAG");
   run data <- on_tb (tb_getcol "DATA");
   ret tt)%prog.

End ProbeBlocks.

(** ** The coordinates of the image, lines 57-74 *)






(** ** Entries of arrays *)

(** [a[p, i]] and [a[p, ch, i]] for indices within the array. *)
Definition entry2 (a : list (list R)) (p i : nat) : R :=
  nth i (nth p a []) 0%R.

Definition entry3 (a : list (list (list C))) (p ch i : nat) : C :=
  nth i (nth ch (nth p a []) []) (RtoC 0).

(** A window with a single polarization, one channel, one sample. *)
Definition single_pol_query : Query R C := {|
  q_data := [ [ [RtoC 1] ] ];
  q_model_data := [ [ [RtoC 0] ] ];
  q_weight := [ [1] ]%R;
  q_flag := [ [ [false] ] ]
|}.

(** ** A tool with one failing call *)

Definition store_failure : exn := Exn RuntimeError "store failure".

Section FaultyTool.
Context {F K : Type}.
Variable fail_at : nat.
Variable q : Query F K.

(** The call numbered [k] raises and leaves the tool as it was when
    [k] is [fail_at]; otherwise it returns and the tool becomes
    [next]. *)
Definition faulty_call (k : nat) (next : sim_ms) : M sim_ms unit :=
  fun t =>
    if Nat.eqb fail_at k then (Raise store_failure, t) else (Ret tt, next).

(** A tool whose calls, numbered from 0 in the order of lines 206-213,
    all return except the one numbered [fail_at]. *)
Definition FaultyMs : MsTool sim_ms F K := {|
  ms_open := fun _ t =>
    faulty_call 0
      {| sim_opened := true; sim_selected := sim_selected t |} t;
  ms_selectinit := fun d t =>
    faulty_call 1 {| sim_opened := sim_opened t; sim_selected := Some d |} t;
  ms_selectinit_reset := fun t =>
    faulty_call 3 {| sim_opened := sim_opened t; sim_selected := None |} t;
  ms_getdata := fun _ t =>
    if Nat.eqb fail_at 2 then (Raise store_failure, t) else (Ret q, t);
  ms_close := fun t =>
    faulty_call 4
      {| sim_opened := false; sim_selected := sim_selected t |} t;
  ms_is_open := sim_opened;
  ms_has_selection := fun t =>
    match sim_selected t with Some _ => true | None => false end
|}.

End FaultyTool.

(** * Properties *)

Unset Implicit Arguments.

(** ** Lists, shapes and broadcasting *)

Lemma map2_ext {A B C : Type} (f g : A -> B -> C) (xs : list A) (ys : list B) :
  (forall x y, In x xs -> In y ys -> f x y = g x y) ->
  map2 f xs ys = map2 g xs ys.
Proof.
  revert ys. induction xs as [|x xs IH]; intros [|y ys] H; simpl; trivial.
  f_equal.
  - apply H; now left.
  - apply IH. intros; apply H; now right.
Qed.

Lemma map_map2 {A B C D : Type} (f : C -> D) (g : A -> B -> C) xs ys :
  map f (map2 g xs ys) = map2 (fun x y => f (g x y)) xs ys.
Proof.
  revert ys. induction xs as [|x xs IH]; intros [|y ys]; simpl; trivial.
  now rewrite IH.
Qed.

Lemma map2_map_r {A B B' C : Type} (f : A -> B' -> C) (g : B -> B') xs ys :
  map2 f xs (map g ys) = map2 (fun x y => f x (g y)) xs ys.
Proof.
  revert ys. induction xs as [|x xs IH]; intros [|y ys]; simpl; trivial.
  now rewrite IH.
Qed.

Lemma map2_length {A B C : Type} (f : A -> B -> C) xs ys :
  List.length xs = List.length ys ->
  List.length (map2 f xs ys) = List.length xs.
Proof.
  revert ys. induction xs as [|x xs IH]; intros [|y ys]; simpl; try easy.
  intros H. f_equal. apply IH. now injection H.
Qed.

Lemma in_map2 {A B C : Type} (f : A -> B -> C) xs ys z :
  In z (map2 f xs ys) -> exists x y, In x xs /\ In y ys /\ z = f x y.
Proof.
  revert ys. induction xs as [|x xs IH]; intros [|y ys] H; simpl in H;
    try contradiction.
  destruct H as [<-|H].
  - exists x, y. simpl; auto.
  - destruct (IH _ H) as (x' & y' & Hx & Hy & ->).
    exists x', y'. simpl; auto.
Qed.

Lemma has_shape2_spec {A : Type} (c n : nat) (a : list (list A)) :
  has_shape2 c n a = true <->
  List.length a = c /\ forall row, In row a -> List.length row = n.
Proof.
  unfold has_shape2.
  rewrite andb_true_iff, Nat.eqb_eq, forallb_forall.
  split; intros [Hl Hr]; split; trivial; intros row Hin.
  - now apply Nat.eqb_eq, Hr.
  - now apply Nat.eqb_eq, Hr.
Qed.

Lemma has_shape3_two {A : Type} (c n : nat) (a : list (list (list A))) :
  has_shape3 2 c n a = true ->
  exists a0 a1, a = [a0; a1] /\
                has_shape2 c n a0 = true /\ has_shape2 c n a1 = true.
Proof.
  unfold has_shape3. intros H. apply andb_true_iff in H as [Hl Hs].
  destruct a as [|a0 [|a1 [|a2 a]]]; try discriminate.
  simpl in Hs. rewrite andb_true_r in Hs.
  apply andb_true_iff in Hs as [H0 H1]. now exists a0, a1.
Qed.

Lemma has_shape2_two {A : Type} (n : nat) (a : list (list A)) :
  has_shape2 2 n a = true ->
  exists r0 r1, a = [r0; r1] /\ List.length r0 = n /\ List.length r1 = n.
Proof.
  intros H. apply has_shape2_spec in H as [Hl Hr].
  destruct a as [|r0 [|r1 [|r2 a]]]; try discriminate.
  exists r0, r1. repeat split; apply Hr; simpl; auto.
Qed.

Lemma mapM_pure {A C : Type} (g : A -> outcome C) (h : A -> C) xs :
  (forall x, In x xs -> g x = Ret (h x)) ->
  mapM g xs = Ret (map h xs).
Proof.
  induction xs as [|x xs IH]; intros H; simpl; trivial.
  rewrite H by now left. simpl.
  rewrite IH by (intros; apply H; now right). reflexivity.
Qed.

Lemma zipM_pure {A B C : Type} (g : A -> B -> outcome C) (h : A -> B -> C)
    xs ys :
  (forall x y, In x xs -> In y ys -> g x y = Ret (h x y)) ->
  zipM g xs ys = Ret (map2 h xs ys).
Proof.
  revert ys. induction xs as [|x xs IH]; intros [|y ys] H; simpl; trivial.
  rewrite H by now left. simpl.
  rewrite IH by (intros; apply H; now right). reflexivity.
Qed.

Lemma broadcast_same_length {A B C : Type} (g : A -> B -> outcome C) xs ys :
  List.length xs = List.length ys ->
  broadcast g xs ys = zipM g xs ys.
Proof.
  intros H. unfold broadcast. now rewrite H, Nat.eqb_refl.
Qed.

Lemma broadcast_stretch_r {A B C : Type} (g : A -> B -> outcome C) xs y :
  broadcast g xs [y] = mapM (fun x => g x y) xs.
Proof.
  destruct xs as [|x [|x' xs]]; reflexivity.
Qed.

Lemma broadcast_pure {A B C : Type} (f : A -> B -> C) xs ys :
  List.length xs = List.length ys ->
  broadcast (fun x y => Ret (f x y)) xs ys = Ret (map2 f xs ys).
Proof.
  intros H. rewrite broadcast_same_length by assumption.
  now apply zipM_pure.
Qed.

(** Elementwise combination of two arrays of one shape. *)
Lemma broadcast2_shaped {A B C : Type} (f : A -> B -> C) (c n : nat) a b :
  has_shape2 c n a = true -> has_shape2 c n b = true ->
  broadcast (broadcast (fun x y => Ret (f x y))) a b = Ret (map2 (map2 f) a b).
Proof.
  intros Ha Hb.
  apply has_shape2_spec in Ha as [La Ra], Hb as [Lb Rb].
  rewrite broadcast_same_length by congruence.
  apply zipM_pure. intros x y Hx Hy.
  apply broadcast_pure. rewrite (Ra x Hx), (Rb y Hy). reflexivity.
Qed.

(** Combination with a row stretched along the channel axis. *)
Lemma broadcast2_row {A B C : Type} (f : A -> B -> C) (c n : nat) a row :
  has_shape2 c n a = true -> List.length row = n ->
  broadcast (broadcast (fun x y => Ret (f x y))) a [row]
  = Ret (map (fun x => map2 f x row) a).
Proof.
  intros Ha Hrow. apply has_shape2_spec in Ha as [_ Ra].
  rewrite broadcast_stretch_r. apply mapM_pure.
  intros x Hx. apply broadcast_pure. rewrite (Ra x Hx). now symmetry.
Qed.

Lemma map2_shape2 {A B C : Type} (f : A -> B -> C) (c n : nat) a b :
  has_shape2 c n a = true -> has_shape2 c n b = true ->
  has_shape2 c n (map2 (map2 f) a b) = true.
Proof.
  intros Ha Hb.
  apply has_shape2_spec in Ha as [La Ra], Hb as [Lb Rb].
  apply has_shape2_spec. split.
  - rewrite map2_length; congruence.
  - intros row Hin. apply in_map2 in Hin as (x & y & Hx & Hy & ->).
    rewrite map2_length; rewrite (Ra x Hx); [|rewrite (Rb y Hy)]; trivial.
Qed.

(** ** Boolean masks *)

Lemma select_cons {A : Type} (x : A) (b : bool) xs ks :
  select (x :: xs) (b :: ks) = if b then x :: select xs ks else select xs ks.
Proof. unfold select. simpl. now destruct b. Qed.

Lemma select_app {A : Type} (xs ys : list A) (ks ls : list bool) :
  List.length xs = List.length ks ->
  select (xs ++ ys) (ks ++ ls) = select xs ks ++ select ys ls.
Proof.
  revert ks. induction xs as [|x xs IH]; intros [|k ks] H;
    try discriminate; trivial.
  simpl app. rewrite !select_cons, IH by (now injection H).
  now destruct k.
Qed.

Lemma mask_row_select {A : Type} (row : list A) (m : list bool) :
  List.length row = List.length m ->
  mask_row row m = Ret (select row m).
Proof.
  revert m. induction row as [|x row IH]; intros [|b m] H;
    try discriminate; trivial.
  simpl. rewrite IH by (now injection H). simpl.
  now rewrite select_cons.
Qed.

Lemma bool_index_select {A : Type} (c n : nat) (a : list (list A)) mask :
  has_shape2 c n a = true -> has_shape2 c n mask = true ->
  bool_index a mask = Ret (select (concat a) (concat mask)).
Proof.
  intros Ha Hm.
  apply has_shape2_spec in Ha as [La Ra], Hm as [Lm Rm].
  subst c. revert mask Lm Rm.
  induction a as [|row a IH]; intros [|m mask] Lm Rm; try discriminate; trivial.
  assert (Hrow : List.length row = List.length m).
  { rewrite Ra, Rm; simpl; auto. }
  simpl. rewrite (mask_row_select _ _ Hrow). simpl.
  rewrite IH; simpl; auto.
  - now rewrite select_app.
  - intros r Hr. apply Ra. now right.
  - intros r Hr. apply Rm. now right.
Qed.

Lemma invert_shape2 (c n : nat) (flag : list (list bool)) :
  has_shape2 c n flag = true -> has_shape2 c n (invert flag) = true.
Proof.
  intros H. apply has_shape2_spec in H as [L Rw]. apply has_shape2_spec.
  unfold invert. split.
  - now rewrite length_map.
  - intros row Hin. apply in_map_iff in Hin as (r & <- & Hr).
    rewrite length_map. now apply Rw.
Qed.

Lemma concat_invert (flag : list (list bool)) :
  concat (invert flag) = map negb (concat flag).
Proof. unfold invert. symmetry. apply concat_map. Qed.

Lemma select_all {A : Type} (xs : list A) (flags : list bool) :
  List.length xs = List.length flags ->
  forallb negb flags = true ->
  select xs (map negb flags) = xs.
Proof.
  revert flags. induction xs as [|x xs IH]; intros [|b flags] L H;
    try discriminate; trivial.
  simpl in H. apply andb_true_iff in H as [Hb H].
  simpl map. rewrite select_cons, Hb. f_equal.
  apply IH; [now injection L | assumption].
Qed.

Lemma select_none {A : Type} (xs : list A) (flags : list bool) :
  forallb (fun b => b) flags = true ->
  select xs (map negb flags) = [].
Proof.
  revert flags. induction xs as [|x xs IH]; intros [|b flags] H; trivial.
  simpl in H. apply andb_true_iff in H as [-> H].
  simpl map. rewrite select_cons. simpl. now apply IH.
Qed.

Lemma select_length {A : Type} (xs : list A) (flags : list bool) :
  List.length xs = List.length flags ->
  List.length (select xs (map negb flags)) = count_false flags.
Proof.
  unfold count_false.
  revert flags. induction xs as [|x xs IH]; intros [|b flags] L;
    try discriminate; trivial.
  simpl map. rewrite select_cons. injection L as L.
  destruct b; simpl; rewrite IH; trivial.
Qed.

Lemma select_map {A B : Type} (f : A -> B) (xs : list A) (ks : list bool) :
  select (map f xs) ks = map f (select xs ks).
Proof.
  revert ks. induction xs as [|x xs IH]; intros [|k ks]; trivial.
  simpl map. rewrite !select_cons, IH. now destruct k.
Qed.

Lemma forallb_concat {A : Type} (f : A -> bool) (l : list (list A)) :
  forallb (forallb f) l = forallb f (concat l).
Proof.
  induction l as [|x l IH]; simpl; trivial.
  now rewrite forallb_app, IH.
Qed.

Lemma shape2_concat_length {A : Type} (c n : nat) (a : list (list A)) :
  has_shape2 c n a = true -> List.length (concat a) = c * n.
Proof.
  intros H. apply has_shape2_spec in H as [L Rw]. subst c.
  induction a as [|row a IH]; simpl; trivial.
  rewrite length_app, Rw by now left.
  rewrite IH; trivial. intros r Hr. apply Rw. now right.
Qed.

(** ** The body of [get_scatter_datadescid] on well-shaped columns *)

Section Structure.
Context {T F K : Type} {num : NumOps F K} {tool : MsTool T F K}.

Lemma sigma_of_rows (w0 w1 : list F) (r : F) :
  sigma_of [w0; w1] r
  = [ map (fun w => f_mul (f_sqrt (f_div (f_of_Z 1) w)) r) w0;
      map (fun w => f_mul (f_sqrt (f_div (f_of_Z 1) w)) r) w1 ].
Proof. unfold sigma_of. simpl. now rewrite !map_map. Qed.

(** One polarization: subtraction, then division by the stretched
    noise row, gives the array of the specification. *)
Lemma scatter_pol_refines (c n : nat) (r : F) (d m : list (list K))
    (w : list F) :
  has_shape2 c n d = true -> has_shape2 c n m = true ->
  List.length w = n ->
  obind (broadcast (broadcast (fun x y => Ret (k_sub x y))) d m)
        (fun res =>
           broadcast (broadcast (fun x y => Ret (k_div_f x y))) res
             [map (fun w => f_mul (f_sqrt (f_div (f_of_Z 1) w)) r) w])
  = Ret (spec_scatter_pol r d m w).
Proof.
  intros Hd Hm Hw.
  rewrite broadcast2_shaped with (c := c) (n := n) by assumption. simpl.
  rewrite broadcast2_row with (c := c) (n := n);
    [| now apply map2_shape2 | now rewrite length_map].
  f_equal. unfold spec_scatter_pol. rewrite map_map2.
  apply map2_ext. intros; apply map2_map_r.
Qed.

Lemma spec_scatter_pol_shape (c n : nat) (r : F) (d m : list (list K))
    (w : list F) :
  has_shape2 c n d = true -> has_shape2 c n m = true ->
  List.length w = n ->
  has_shape2 c n (spec_scatter_pol r d m w) = true.
Proof.
  intros Hd Hm Hw.
  apply has_shape2_spec in Hd as [Ld Rd], Hm as [Lm Rm].
  apply has_shape2_spec. unfold spec_scatter_pol. split.
  - rewrite map2_length; congruence.
  - intros row Hin. apply in_map2 in Hin as (x & y & Hx & Hy & ->).
    assert (Hxy : List.length (map2 k_sub x y) = n).
    { rewrite map2_length; rewrite (Rd x Hx); [|rewrite (Rm y Hy)]; trivial. }
    rewrite map2_length; congruence.
Qed.

(** The columns of a well-formed query, one polarization at a time. *)
Lemma wf_query_inv (c n : nat) (q : Query F K) :
  wf_query c n q = true ->
  exists d0 d1 m0 m1 w0 w1 f0 f1,
    q_data q = [d0; d1] /\ q_model_data q = [m0; m1] /\
    q_weight q = [w0; w1] /\ q_flag q = [f0; f1] /\
    has_shape2 c n d0 = true /\ has_shape2 c n d1 = true /\
    has_shape2 c n m0 = true /\ has_shape2 c n m1 = true /\
    List.length w0 = n /\ List.length w1 = n /\
    has_shape2 c n f0 = true /\ has_shape2 c n f1 = true.
Proof.
  unfold wf_query. intros H.
  apply andb_true_iff in H as [H Hf].
  apply andb_true_iff in H as [H Hw].
  apply andb_true_iff in H as [Hd Hm].
  apply has_shape3_two in Hd as (d0 & d1 & -> & ? & ?).
  apply has_shape3_two in Hm as (m0 & m1 & -> & ? & ?).
  apply has_shape2_two in Hw as (w0 & w1 & -> & ? & ?).
  apply has_shape3_two in Hf as (f0 & f1 & -> & ? & ?).
  exists d0, d1, m0, m1, w0, w1, f0, f1. tauto.
Qed.

(** The array [scatter] of line 234 on a well-formed query. *)
Lemma scatter_array_refines (c n : nat) (r : F) (q : Query F K) :
  wf_query c n q = true ->
  obind (elementwise3 k_sub (q_data q) (q_model_data q))
        (fun residuals =>
           elementwise3 k_div_f residuals
                        (newaxis1 (sigma_of (q_weight q) r)))
  = Ret [spec_scatter r q 0; spec_scatter r q 1].
Proof.
  intros H.
  destruct (wf_query_inv _ _ _ H)
    as (d0 & d1 & m0 & m1 & w0 & w1 & f0 & f1 &
        Ed & Em & Ew & Ef & Hd0 & Hd1 & Hm0 & Hm1 & Hw0 & Hw1 & _).
  unfold spec_scatter. rewrite Ed, Em, Ew, sigma_of_rows.
  pose proof (scatter_pol_refines c n r d0 m0 w0 Hd0 Hm0 Hw0) as P0.
  pose proof (scatter_pol_refines c n r d1 m1 w1 Hd1 Hm1 Hw1) as P1.
  rewrite broadcast2_shaped with (c := c) (n := n) in P0, P1 by assumption.
  simpl in P0, P1.
  unfold elementwise3.
  rewrite broadcast_same_length by reflexivity. simpl zipM.
  rewrite !broadcast2_shaped with (c := c) (n := n) by assumption. simpl.
  rewrite broadcast_same_length by reflexivity. simpl zipM.
  rewrite P0, P1. reflexivity.
Qed.

End Structure.

Section Body.
Context {T F K : Type} {num : NumOps F K} {tool : MsTool T F K}.

Lemma spec_scatter_shape (c n : nat) (r : F) (q : Query F K) (p : nat) :
  wf_query c n q = true -> p < 2 ->
  has_shape2 c n (spec_scatter r q p) = true.
Proof.
  intros H Hp.
  destruct (wf_query_inv _ _ _ H)
    as (d0 & d1 & m0 & m1 & w0 & w1 & f0 & f1 &
        Ed & Em & Ew & Ef & Hd0 & Hd1 & Hm0 & Hm1 & Hw0 & Hw1 & _).
  unfold spec_scatter. rewrite Ed, Em, Ew.
  destruct p as [|[|p]]; [| |lia]; now apply spec_scatter_pol_shape.
Qed.

Lemma flag_pol_shape (c n : nat) (q : Query F K) (p : nat) :
  wf_query c n q = true -> p < 2 ->
  has_shape2 c n (flag_pol q p) = true.
Proof.
  intros H Hp.
  destruct (wf_query_inv _ _ _ H)
    as (d0 & d1 & m0 & m1 & w0 & w1 & f0 & f1 &
        _ & _ & _ & Ef & _ & _ & _ & _ & _ & _ & Hf0 & Hf1).
  unfold flag_pol. rewrite Ef.
  destruct p as [|[|p]]; [| |lia]; assumption.
Qed.

(** The flattened scatter and the flattened flags of a polarization
    have the same number of entries. *)
Lemma scatter_flag_lengths (c n : nat) (r : F) (q : Query F K) (p : nat) :
  wf_query c n q = true -> p < 2 ->
  List.length (concat (spec_scatter r q p))
  = List.length (concat (flag_pol q p)).
Proof.
  intros H Hp.
  rewrite (shape2_concat_length c n) by now apply spec_scatter_shape.
  rewrite (shape2_concat_length c n) by now apply flag_pol_shape.
  reflexivity.
Qed.

Lemma scatter_of_query_unflagged (c n : nat) (r : F) (q : Query F K) :
  wf_query c n q = true ->
  scatter_of_query q r false
  = Ret (Arr2 (spec_scatter r q 0), Arr2 (spec_scatter r q 1)).
Proof.
  intros H. pose proof (scatter_array_refines c n r q H) as S.
  destruct (wf_query_inv _ _ _ H)
    as (d0 & d1 & m0 & m1 & w0 & w1 & f0 & f1 &
        _ & Em & _ & Ef & _).
  unfold scatter_of_query. rewrite Em at 1. simpl py_assert. cbn [obind].
  destruct (elementwise3 k_sub (q_data q) (q_model_data q)) as [res|e];
    [|discriminate S].
  cbn [obind] in S |- *. rewrite S, Ef. reflexivity.
Qed.

Lemma scatter_of_query_flagged (c n : nat) (r : F) (q : Query F K) :
  wf_query c n q = true ->
  scatter_of_query q r true
  = Ret (Arr1 (select (concat (spec_scatter r q 0))
                      (map negb (concat (flag_pol q 0)))),
         Arr1 (select (concat (spec_scatter r q 1))
                      (map negb (concat (flag_pol q 1))))).
Proof.
  intros H. pose proof (scatter_array_refines c n r q H) as S.
  destruct (wf_query_inv _ _ _ H)
    as (d0 & d1 & m0 & m1 & w0 & w1 & f0 & f1 &
        Ed & Em & Ew & Ef & Hd0 & Hd1 & Hm0 & Hm1 & Hw0 & Hw1 & Hf0 & Hf1).
  assert (S0 := spec_scatter_shape c n r q 0 H Nat.lt_0_2).
  assert (S1 := spec_scatter_shape c n r q 1 H Nat.lt_1_2).
  unfold scatter_of_query, flag_pol. rewrite Em at 1.
  simpl py_assert. cbn [obind].
  destruct (elementwise3 k_sub (q_data q) (q_model_data q)) as [res|e];
    [|discriminate S].
  cbn [obind] in S |- *. rewrite S, Ef. cbn [unpack2 obind nth].
  rewrite (bool_index_select c n), (bool_index_select c n);
    auto using invert_shape2.
  cbn [obind]. now rewrite !concat_invert.
Qed.

(** The scatter of one polarization, computed from its residuals. *)
Lemma spec_scatter_pol_residuals (r : F) (d m : list (list K))
    (w : list F) :
  spec_scatter_pol r d m w
  = map (fun row =>
           map2 (fun z x =>
                   k_div_f z (f_mul (f_sqrt (f_div (f_of_Z 1) x)) r))
                row w)
        (map2 (map2 k_sub) d m).
Proof. unfold spec_scatter_pol. now rewrite map_map2. Qed.

Lemma scatter_of_query_clear (c n : nat) (r : F) (q : Query F K) :
  wf_query c n q = true ->
  all_false2 (flag_pol q 0) = true -> all_false2 (flag_pol q 1) = true ->
  scatter_of_query q r true
  = Ret (Arr1 (concat (spec_scatter r q 0)),
         Arr1 (concat (spec_scatter r q 1))).
Proof.
  intros H H0 H1. rewrite (scatter_of_query_flagged c n r q H).
  unfold all_false2 in H0, H1. rewrite forallb_concat in H0, H1.
  rewrite !select_all; trivial; apply (scatter_flag_lengths c n); auto.
Qed.

Lemma get_scatter_fetched (d : Z) (r : F) (af : bool) (t t' : T)
    (q : Query F K) :
  fetch_columns d t = (Ret q, t') ->
  get_scatter_datadescid d r af t = (scatter_of_query q r af, t').
Proof.
  intros H. unfold get_scatter_datadescid, bind. now rewrite H.
Qed.

Lemma get_scatter_fetch_raises (d : Z) (r : F) (af : bool) (t t' : T)
    (e : exn) :
  fetch_columns d t = (Raise e, t') ->
  get_scatter_datadescid d r af t = (Raise e, t').
Proof.
  intros H. unfold get_scatter_datadescid, bind. now rewrite H.
Qed.

End Body.

(** ** The in-memory tool *)

Lemma SimMs_laws {F K : Type} (table : Z -> option (Query F K)) :
  MsToolLaws (SimMs table).
Proof.
  split; intros t t' H; cbn in H; injection H as <-; reflexivity.
Qed.

Lemma FaultyMs_laws {F K : Type} (fail_at : nat) (q : Query F K) :
  MsToolLaws (FaultyMs fail_at q).
Proof.
  split; intros t t' H; cbn in H; unfold faulty_call in H;
    destruct (Nat.eqb fail_at _); try discriminate;
    injection H as <-; reflexivity.
Qed.

Lemma sim_fetch {F K : Type} (table : Z -> option (Query F K)) (d : Z)
    (q : Query F K) :
  table d = Some q ->
  fetch_columns (tool := SimMs table) d sim_closed = (Ret q, sim_closed).
Proof.
  intros H. unfold fetch_columns, bind. cbn.
  unfold sim_selectinit. cbn. rewrite H. cbn.
  unfold sim_getdata. cbn. rewrite H. reflexivity.
Qed.

Example fetch_example :
  fetch_columns (tool := SimMs example_table) 0 sim_closed
  = (Ret example_query, sim_closed).
Proof. reflexivity. Qed.

Example format_int_7 : format_int 7 = "7".
Proof. reflexivity. Qed.

Example format_int_22 : format_int 22 = "22".
Proof. reflexivity. Qed.

(** ** Claims about the flags and the assertion *)

Section Claims.
Context {T F K : Type} {num : NumOps F K} {tool : MsTool T F K}.

(** C2: when the model column that was read has length zero, the
    call raises MissingModelData (the failed assertion) and returns
    no result, whatever the other columns and arguments are. *)
Theorem missing_model_data_raises (d : Z) (r : F) (af : bool) (t t' : T)
    (q : Query F K) :
  fetch_columns d t = (Ret q, t') ->
  List.length (q_model_data q) = 0 ->
  get_scatter_datadescid d r af t = (Raise MissingModelData, t').
Proof.
  intros Hf Hlen. rewrite (get_scatter_fetched d r af t t' q Hf).
  unfold scatter_of_query. now rewrite Hlen.
Qed.

(** C5: for a polarization whose flags are all false, the result with
    [apply_flags = true] is the flattening of the result with
    [apply_flags = false] on the same input. *)
Theorem unflagged_mask_is_flatten (d : Z) (r : F) (t t' : T)
    (q : Query F K) (c n : nat) :
  fetch_columns d t = (Ret q, t') ->
  wf_query c n q = true ->
  exists a b a' b',
    get_scatter_datadescid d r false t = (Ret (a, b), t') /\
    get_scatter_datadescid d r true t = (Ret (a', b'), t') /\
    (all_false2 (flag_pol q 0) = true -> a' = Arr1 (flatten a)) /\
    (all_false2 (flag_pol q 1) = true -> b' = Arr1 (flatten b)).
Proof.
  intros Hf Hwf.
  rewrite !(get_scatter_fetched d r _ t t' q Hf).
  rewrite (scatter_of_query_unflagged c n r q Hwf).
  rewrite (scatter_of_query_flagged c n r q Hwf).
  do 4 eexists. do 2 (split; [reflexivity|]).
  unfold all_false2. cbn [flatten].
  split; intros Hall; f_equal; apply select_all;
    solve [ apply (scatter_flag_lengths c n); auto
          | now rewrite <- forallb_concat ].
Qed.

(** C6: with [apply_flags = true] a polarization whose flags are all
    true comes back as the empty sequence; with [apply_flags = false]
    both polarizations come back unfiltered, as the two-dimensional
    [channel, sample] arrays of normalized residuals. *)
Theorem all_flagged_is_empty_and_unflagged_keeps_shape (d : Z) (r : F)
    (t t' : T) (q : Query F K) (c n : nat) :
  fetch_columns d t = (Ret q, t') ->
  wf_query c n q = true ->
  (exists a' b',
      get_scatter_datadescid d r true t = (Ret (a', b'), t') /\
      (all_true2 (flag_pol q 0) = true -> a' = Arr1 []) /\
      (all_true2 (flag_pol q 1) = true -> b' = Arr1 [])) /\
  get_scatter_datadescid d r false t
  = (Ret (Arr2 (spec_scatter r q 0), Arr2 (spec_scatter r q 1)), t') /\
  has_shape2 c n (spec_scatter r q 0) = true /\
  has_shape2 c n (spec_scatter r q 1) = true.
Proof.
  intros Hf Hwf.
  rewrite !(get_scatter_fetched d r _ t t' q Hf).
  rewrite (scatter_of_query_unflagged c n r q Hwf).
  rewrite (scatter_of_query_flagged c n r q Hwf).
  repeat split; auto using spec_scatter_shape.
  do 2 eexists. split; [reflexivity|].
  unfold all_true2.
  split; intros Hall; f_equal; apply select_none;
    now rewrite <- forallb_concat.
Qed.

(** C10: with [apply_flags = true] each polarization comes back as
    the unflagged entries of its two-dimensional scatter array, in
    row-major order, and their number is the number of false flags
    of that polarization. *)
Theorem masked_entries_row_major (d : Z) (r : F) (t t' : T)
    (q : Query F K) (c n : nat) :
  fetch_columns d t = (Ret q, t') ->
  wf_query c n q = true ->
  exists sx sy vx vy,
    get_scatter_datadescid d r false t = (Ret (Arr2 sx, Arr2 sy), t') /\
    get_scatter_datadescid d r true t = (Ret (Arr1 vx, Arr1 vy), t') /\
    vx = select (concat sx) (map negb (concat (flag_pol q 0))) /\
    vy = select (concat sy) (map negb (concat (flag_pol q 1))) /\
    List.length vx = count_false (concat (flag_pol q 0)) /\
    List.length vy = count_false (concat (flag_pol q 1)).
Proof.
  intros Hf Hwf.
  rewrite !(get_scatter_fetched d r _ t t' q Hf).
  rewrite (scatter_of_query_unflagged c n r q Hwf).
  rewrite (scatter_of_query_flagged c n r q Hwf).
  do 4 eexists. do 4 (split; [reflexivity|]).
  split; apply select_length; apply (scatter_flag_lengths c n); auto.
Qed.

Lemma fetch_columns_inv (d : Z) (t t' : T) (q : Query F K) :
  fetch_columns d t = (Ret q, t') ->
  exists t1 t2 t3 t4,
    ms_open fname t = (Ret tt, t1) /\
    ms_selectinit d t1 = (Ret tt, t2) /\
    ms_getdata
      ["DATA"; "MODEL_DATA"; "WEIGHT"; "UVW"; "ANTENNA1"; "ANTENNA2"; "FLAG"]
      t2 = (Ret q, t3) /\
    ms_selectinit_reset t3 = (Ret tt, t4) /\
    ms_close t4 = (Ret tt, t').
Proof.
  unfold fetch_columns, bind, ret. intros H.
  destruct (ms_open fname t) as [[[]|e1] t1] eqn:E1; [|discriminate H].
  destruct (ms_selectinit d t1) as [[[]|e2] t2] eqn:E2; [|discriminate H].
  destruct (ms_getdata _ t2) as [[q'|e3] t3] eqn:E3; [|discriminate H].
  destruct (ms_selectinit_reset t3) as [[[]|e4] t4] eqn:E4;
    [|discriminate H].
  destruct (ms_close t4) as [[[]|e5] t5] eqn:E5; [|discriminate H].
  injection H as -> ->. now exists t1, t2, t3, t4.
Qed.

(** An exception of [ms.getdata] leaves the function at once: the
    tool is left in the state in which the call failed. *)
Lemma getdata_failure_propagates (d : Z) (r : F) (af : bool)
    (t t1 t2 t3 : T) (e : exn) :
  ms_open fname t = (Ret tt, t1) ->
  ms_selectinit d t1 = (Ret tt, t2) ->
  ms_getdata
    ["DATA"; "MODEL_DATA"; "WEIGHT"; "UVW"; "ANTENNA1"; "ANTENNA2"; "FLAG"]
    t2 = (Raise e, t3) ->
  get_scatter_datadescid d r af t = (Raise e, t3).
Proof.
  intros H1 H2 H3. apply get_scatter_fetch_raises.
  unfold fetch_columns, bind. now rewrite H1, H2, H3.
Qed.

Lemma selectinit_failure_propagates (d : Z) (r : F) (af : bool)
    (t t1 t2 : T) (e : exn) :
  ms_open fname t = (Ret tt, t1) ->
  ms_selectinit d t1 = (Raise e, t2) ->
  get_scatter_datadescid d r af t = (Raise e, t2).
Proof.
  intros H1 H2. apply get_scatter_fetch_raises.
  unfold fetch_columns, bind. now rewrite H1, H2.
Qed.

Lemma open_failure_propagates (d : Z) (r : F) (af : bool) (t t1 : T)
    (e : exn) :
  ms_open fname t = (Raise e, t1) ->
  get_scatter_datadescid d r af t = (Raise e, t1).
Proof.
  intros H1. apply get_scatter_fetch_raises.
  unfold fetch_columns, bind. now rewrite H1.
Qed.

Lemma reset_failure_propagates (d : Z) (r : F) (af : bool)
    (t t1 t2 t3 t4 : T) (q : Query F K) (e : exn) :
  ms_open fname t = (Ret tt, t1) ->
  ms_selectinit d t1 = (Ret tt, t2) ->
  ms_getdata
    ["DATA"; "MODEL_DATA"; "WEIGHT"; "UVW"; "ANTENNA1"; "ANTENNA2"; "FLAG"]
    t2 = (Ret q, t3) ->
  ms_selectinit_reset t3 = (Raise e, t4) ->
  get_scatter_datadescid d r af t = (Raise e, t4).
Proof.
  intros H1 H2 H3 H4. apply get_scatter_fetch_raises.
  unfold fetch_columns, bind. now rewrite H1, H2, H3, H4.
Qed.

Lemma close_failure_propagates (d : Z) (r : F) (af : bool)
    (t t1 t2 t3 t4 t5 : T) (q : Query F K) (e : exn) :
  ms_open fname t = (Ret tt, t1) ->
  ms_selectinit d t1 = (Ret tt, t2) ->
  ms_getdata
    ["DATA"; "MODEL_DATA"; "WEIGHT"; "UVW"; "ANTENNA1"; "ANTENNA2"; "FLAG"]
    t2 = (Ret q, t3) ->
  ms_selectinit_reset t3 = (Ret tt, t4) ->
  ms_close t4 = (Raise e, t5) ->
  get_scatter_datadescid d r af t = (Raise e, t5).
Proof.
  intros H1 H2 H3 H4 H5. apply get_scatter_fetch_raises.
  unfold fetch_columns, bind. now rewrite H1, H2, H3, H4, H5.
Qed.

(** C9, as the code has it: when the five calls into the store
    return, the selection has been reset and the connection closed
    by the time the function returns or raises (the failed assertion
    and the array errors included).  When one of the five calls
    raises, its exception leaves the function at once and the store
    stays as that call left it: no later call into the store is made,
    so that [ms.close] is not called after a failure of [ms.open],
    of [ms.selectinit], of [ms.getdata] or of the reset. *)
Theorem store_released_after_fetch {laws : MsToolLaws tool} (d : Z) (r : F)
    (af : bool) (t : T) :
  (forall q t',
      fetch_columns d t = (Ret q, t') ->
      exists res,
        get_scatter_datadescid d r af t = (res, t') /\
        ms_is_open t' = false /\ ms_has_selection t' = false) /\
  (forall e t1,
      ms_open fname t = (Raise e, t1) ->
      get_scatter_datadescid d r af t = (Raise e, t1)) /\
  (forall e t1 t2,
      ms_open fname t = (Ret tt, t1) ->
      ms_selectinit d t1 = (Raise e, t2) ->
      get_scatter_datadescid d r af t = (Raise e, t2)) /\
  (forall e t1 t2 t3,
      ms_open fname t = (Ret tt, t1) ->
      ms_selectinit d t1 = (Ret tt, t2) ->
      ms_getdata
        ["DATA"; "MODEL_DATA"; "WEIGHT"; "UVW"; "ANTENNA1"; "ANTENNA2"; "FLAG"]
        t2 = (Raise e, t3) ->
      get_scatter_datadescid d r af t = (Raise e, t3)) /\
  (forall e q t1 t2 t3 t4,
      ms_open fname t = (Ret tt, t1) ->
      ms_selectinit d t1 = (Ret tt, t2) ->
      ms_getdata
        ["DATA"; "MODEL_DATA"; "WEIGHT"; "UVW"; "ANTENNA1"; "ANTENNA2"; "FLAG"]
        t2 = (Ret q, t3) ->
      ms_selectinit_reset t3 = (Raise e, t4) ->
      get_scatter_datadescid d r af t = (Raise e, t4)) /\
  (forall e q t1 t2 t3 t4 t5,
      ms_open fname t = (Ret tt, t1) ->
      ms_selectinit d t1 = (Ret tt, t2) ->
      ms_getdata
        ["DATA"; "MODEL_DATA"; "WEIGHT"; "UVW"; "ANTENNA1"; "ANTENNA2"; "FLAG"]
        t2 = (Ret q, t3) ->
      ms_selectinit_reset t3 = (Ret tt, t4) ->
      ms_close t4 = (Raise e, t5) ->
      get_scatter_datadescid d r af t = (Raise e, t5)).
Proof.
  split.
  { intros q t' Hf. exists (scatter_of_query q r af).
    split; [now apply get_scatter_fetched|].
    apply fetch_columns_inv in Hf
      as (t1 & t2 & t3 & t4 & _ & _ & _ & Hreset & Hclose).
    split.
    - eapply close_closes; eassumption.
    - erewrite close_keeps_selection by eassumption.
      eapply reset_clears; eassumption. }
  split; [intros; now apply open_failure_propagates|].
  split; [intros; eapply selectinit_failure_propagates; eassumption|].
  split; [intros; eapply getdata_failure_propagates; eassumption|].
  split; [intros; eapply reset_failure_propagates; eassumption|].
  intros; eapply close_failure_propagates; eassumption.
Qed.

Lemma update_nth_last {A : Type} (f : A -> A) (l : list A) (x : A) :
  update_nth (List.length l) f (l ++ [x]) = l ++ [f x].
Proof. induction l as [|y l IH]; simpl; congruence. Qed.

(** C8: the orchestrator calls [get_scatter_datadescid] with its own
    window selector, rescale factor and flag option, flattens both
    returned arrays whatever their dimension, hands them to
    [scatter_hist] and titles the new figure with the window
    selector; an exception of the call propagates and no figure is
    made. *)
Theorem orchestrator_flattens_and_labels (d : Z) (r : F) (log af : bool)
    (w : world T F) (out : outcome (ndarray K * ndarray K)) (t' : T) :
  get_scatter_datadescid d r af (w_ms w) = (out, t') ->
  let w' := {| w_ms := t'; w_figures := w_figures w |} in
  match out with
  | Ret (sx, sy) =>
      plot_histogram_datadescid d r log af w
      = (run fig <- scatter_hist (flatten sx) (flatten sy) log None None;
         suptitle fig ("DATA_DESC_ID: " ++ format_int d))%prog w' /\
      exists fig,
        plot_histogram_datadescid d r log af w
        = (Ret tt, {| w_ms := t'; w_figures := w_figures w ++ [fig] |}) /\
        map (@ax_hist F) (fig_axes fig)
        = [ map k_real (flatten sx); map k_imag (flatten sx);
            map k_real (flatten sy); map k_imag (flatten sy) ] /\
        fig_suptitle fig = Some ("DATA_DESC_ID: " ++ format_int d)%string
  | Raise e => plot_histogram_datadescid d r log af w = (Raise e, w')
  end.
Proof.
  intros H w'.
  assert (E : plot_histogram_datadescid d r log af w
              = match out with
                | Ret (sx, sy) =>
                    (run fig <- scatter_hist (flatten sx) (flatten sy) log
                                  None None;
                     suptitle fig ("DATA_DESC_ID: " ++ format_int d))%prog w'
                | Raise e => (Raise e, w')
                end).
  { unfold plot_histogram_datadescid, on_ms.
    unfold bind at 1. rewrite H. now destruct out as [[sx sy]|e]. }
  rewrite E. destruct out as [[sx sy]|e]; [|reflexivity].
  split; [reflexivity|].
  unfold bind, scatter_hist, new_figure, suptitle, w'. cbn.
  rewrite update_nth_last. eexists. split; [reflexivity|].
  split; reflexivity.
Qed.

End Claims.

(** ** The table probe *)

(** X1: The [finally] block closes the table on every path of the probe:
    normal return, a caught [RuntimeError], or any other exception. *)
Lemma probe_table_closes {B F K : Type} {tb : TbTool B F K}
    {laws : TbToolLaws tb} (w : probe_world B) :
  tb_is_open (pw_tb (snd (probe_table w))) = false.
Proof.
  unfold probe_table, try_except_finally.
  destruct (bind _ _ w) as [r1 w1].
  match goal with
  | |- context [let (r2, w2) := ?c in _] => destruct c as [r2 w2]
  end.
  unfold on_tb.
  destruct (tb_close_closes (pw_tb w2)) as (b' & -> & Hclosed).
  exact Hclosed.
Qed.

(** ** Claims about the arithmetic, over the real and complex numbers *)

Section RealClaims.
Context {T : Type} {tool : MsTool T R C}.

Local Open Scope R_scope.

Lemma C_eq (z w : C) : Re z = Re w -> Im z = Im w -> z = w.
Proof. destruct z, w; simpl; congruence. Qed.

Lemma sigma_entry_pos (w r : R) : 0 < w -> 0 < r -> 0 < sqrt (1 / w) * r.
Proof.
  intros Hw Hr. apply Rmult_lt_0_compat; trivial.
  apply sqrt_lt_R0. unfold Rdiv. rewrite Rmult_1_l.
  now apply Rinv_0_lt_compat.
Qed.

Lemma Cdiv_Cmult_cancel (z : C) (s : R) :
  s <> 0 -> Cmult (Cdiv z (RtoC s)) (RtoC s) = z.
Proof.
  intros Hs. apply C_eq; destruct z as [a b]; simpl; now field.
Qed.

Lemma Cdiv_rescale (z : C) (s k : R) :
  s <> 0 -> k <> 0 ->
  Cdiv z (RtoC (s * k)) = Cdiv (Cdiv z (RtoC s)) (RtoC k).
Proof.
  intros Hs Hk. apply C_eq; destruct z as [a b]; simpl; now field.
Qed.

Lemma map2_cancel (g : R -> R) (xs : list C) (ws : list R) :
  List.length xs = List.length ws ->
  (forall w, In w ws -> g w <> 0) ->
  map2 (fun z s => Cmult z (RtoC s))
       (map2 (fun x w => Cdiv x (RtoC (g w))) xs ws) (map g ws)
  = xs.
Proof.
  revert ws. induction xs as [|x xs IH]; intros [|w ws] L H;
    try discriminate; trivial.
  simpl. rewrite Cdiv_Cmult_cancel by (apply H; now left).
  f_equal. apply IH; [now injection L|]. intros; apply H; now right.
Qed.

Lemma round_trip_pol (c n : nat) (r : R) (d m : list (list C))
    (w : list R) :
  has_shape2 c n d = true -> has_shape2 c n m = true ->
  List.length w = n -> (forall x, In x w -> 0 < x) -> 0 < r ->
  map (fun row => map2 (fun z s => Cmult z (RtoC s)) row
                       (map (fun x => sqrt (1 / x) * r) w))
      (spec_scatter_pol r d m w)
  = map2 (map2 Cminus) d m.
Proof.
  intros Hd Hm Hw Hpos Hr.
  apply has_shape2_spec in Hd as [_ Rd], Hm as [_ Rm].
  unfold spec_scatter_pol. rewrite map_map2.
  apply map2_ext. intros x y Hx Hy.
  apply (map2_cancel (fun x => sqrt (1 / x) * r)).
  - rewrite map2_length; rewrite (Rd x Hx); [|rewrite (Rm y Hy)]; congruence.
  - intros v Hv. apply Rgt_not_eq, Rlt_gt, sigma_entry_pos; auto.
Qed.

Lemma residuals_shaped (c n : nat) (q : Query R C) :
  wf_query c n q = true ->
  elementwise3 Cminus (q_data q) (q_model_data q)
  = Ret [ map2 (map2 Cminus) (nth 0 (q_data q) [])
               (nth 0 (q_model_data q) []);
          map2 (map2 Cminus) (nth 1 (q_data q) [])
               (nth 1 (q_model_data q) []) ].
Proof.
  intros H.
  destruct (wf_query_inv _ _ _ H)
    as (d0 & d1 & m0 & m1 & w0 & w1 & f0 & f1 &
        Ed & Em & _ & _ & Hd0 & Hd1 & Hm0 & Hm1 & _).
  rewrite Ed, Em. unfold elementwise3.
  rewrite broadcast_same_length by reflexivity. simpl zipM.
  now rewrite !broadcast2_shaped with (c := c) (n := n).
Qed.

Lemma nth_map2 {A B D : Type} (f : A -> B -> D) (xs : list A) (ys : list B)
    (i : nat) (dx : A) (dy : B) (dz : D) :
  (i < List.length xs)%nat -> (i < List.length ys)%nat ->
  nth i (map2 f xs ys) dz = f (nth i xs dx) (nth i ys dy).
Proof.
  revert xs ys. induction i as [|i IH]; intros [|x xs] [|y ys] Hx Hy;
    simpl in *; try lia; trivial.
  apply IH; lia.
Qed.

Lemma nth_map_lt {A B : Type} (f : A -> B) (l : list A) (i : nat)
    (da : A) (db : B) :
  (i < List.length l)%nat -> nth i (map f l) db = f (nth i l da).
Proof.
  intros H. rewrite (nth_indep _ db (f da)) by now rewrite length_map.
  apply map_nth.
Qed.

Lemma row_length {A : Type} (c n ch : nat) (a : list (list A)) :
  has_shape2 c n a = true -> (ch < c)%nat ->
  (ch < List.length a)%nat /\ List.length (nth ch a []) = n.
Proof.
  intros H Hch. apply has_shape2_spec in H as [L Rw]. subst c.
  split; trivial. apply Rw, nth_In, Hch.
Qed.

(** The entry of the residuals of one polarization at a channel and a
    sample. *)
Lemma residual_entry (c n ch i : nat) (d m : list (list C)) :
  has_shape2 c n d = true -> has_shape2 c n m = true ->
  (ch < c)%nat -> (i < n)%nat ->
  nth i (nth ch (map2 (map2 Cminus) d m) []) (RtoC 0)
  = Cminus (nth i (nth ch d []) (RtoC 0)) (nth i (nth ch m []) (RtoC 0)).
Proof.
  intros Hd Hm Hch Hi.
  destruct (row_length c n ch d Hd Hch) as [Ld Rd].
  destruct (row_length c n ch m Hm Hch) as [Lm Rm].
  rewrite (nth_map2 _ d m ch [] [] []) by assumption.
  apply nth_map2; lia.
Qed.

(** The entry of the scatter of one polarization at a channel and a
    sample. *)
Lemma spec_scatter_pol_entry (c n ch i : nat) (r : R) (d m : list (list C))
    (w : list R) :
  has_shape2 c n d = true -> has_shape2 c n m = true ->
  List.length w = n -> (ch < c)%nat -> (i < n)%nat ->
  nth i (nth ch (spec_scatter_pol r d m w) []) (RtoC 0)
  = Cdiv (Cminus (nth i (nth ch d []) (RtoC 0)) (nth i (nth ch m []) (RtoC 0)))
         (RtoC (sqrt (1 / nth i w 0) * r)).
Proof.
  intros Hd Hm Hw Hch Hi.
  destruct (row_length c n ch d Hd Hch) as [Ld Rd].
  destruct (row_length c n ch m Hm Hch) as [Lm Rm].
  unfold spec_scatter_pol.
  rewrite (nth_map2 _ d m ch [] [] []) by assumption.
  rewrite (nth_map2 _ _ w i (RtoC 0) 0 (RtoC 0));
    [| rewrite map2_length; lia | lia].
  rewrite (nth_map2 Cminus _ _ i (RtoC 0) (RtoC 0) (RtoC 0)) by lia.
  reflexivity.
Qed.

(** The arrays of the round trip, written out. *)
Lemma round_trip_arrays (d : Z) (t t' : T) (q : Query R C) (c n : nat) :
  fetch_columns d t = (Ret q, t') ->
  wf_query c n q = true ->
  (forall row w, In row (q_weight q) -> In w row -> 0 < w) ->
  let sigma := sigma_of (q_weight q) 1 in
  let residuals :=
    [ map2 (map2 Cminus) (nth 0 (q_data q) []) (nth 0 (q_model_data q) []);
      map2 (map2 Cminus) (nth 1 (q_data q) []) (nth 1 (q_model_data q) []) ] in
  elementwise3 Cminus (q_data q) (q_model_data q) = Ret residuals /\
  get_scatter_datadescid d 1 false t
  = (Ret (Arr2 (spec_scatter 1 q 0), Arr2 (spec_scatter 1 q 1)), t') /\
  elementwise3 (fun z s => Cdiv z (RtoC s)) residuals (newaxis1 sigma)
  = Ret [spec_scatter 1 q 0; spec_scatter 1 q 1] /\
  elementwise3 (fun z s => Cmult z (RtoC s))
    [spec_scatter 1 q 0; spec_scatter 1 q 1] (newaxis1 sigma)
  = Ret residuals.
Proof.
  intros Hf Hwf Hpos sigma residuals.
  pose proof (scatter_array_refines c n 1 q Hwf) as S.
  change (@k_sub R C RNum) with Cminus in S.
  change (@k_div_f R C RNum) with (fun z s => Cdiv z (RtoC s)) in S.
  rewrite (residuals_shaped c n q Hwf) in S |- *. cbn [obind] in S.
  split; [reflexivity|].
  split; [rewrite (get_scatter_fetched d 1 false t t' q Hf);
          now rewrite (scatter_of_query_unflagged c n 1 q Hwf)|].
  split; [exact S|].
  destruct (wf_query_inv _ _ _ Hwf)
    as (d0 & d1 & m0 & m1 & w0 & w1 & f0 & f1 &
        Ed & Em & Ew & Ef & Hd0 & Hd1 & Hm0 & Hm1 & Hw0 & Hw1 & _).
  assert (P0 : forall x, In x w0 -> 0 < x).
  { intros x Hx. apply (Hpos w0); trivial. rewrite Ew. now left. }
  assert (P1 : forall x, In x w1 -> 0 < x).
  { intros x Hx. apply (Hpos w1); trivial. rewrite Ew. right. now left. }
  pose proof (spec_scatter_shape c n 1 q 0 Hwf Nat.lt_0_2) as S0.
  pose proof (spec_scatter_shape c n 1 q 1 Hwf Nat.lt_1_2) as S1.
  unfold sigma, residuals. rewrite Ew, sigma_of_rows. unfold elementwise3.
  rewrite broadcast_same_length by reflexivity. simpl zipM.
  rewrite !broadcast2_row with (c := c) (n := n);
    try assumption; try (now rewrite length_map).
  simpl. unfold spec_scatter. rewrite Ed, Em, Ew. simpl nth.
  rewrite (round_trip_pol c n 1 d0 m0 w0), (round_trip_pol c n 1 d1 m1 w1);
    trivial; lra.
Qed.

(** C3: with strictly positive weights and [sigma_rescale = 1] the
    noise estimate is [sqrt (1 / weight)], the returned scatter is the
    residual divided by it, and multiplying the scatter by the noise
    estimate (stretched along the channel axis) gives back
    [data - model_data], exactly in real arithmetic.  The arrays have
    the shape of the columns, and the three relations are stated once
    on the arrays and once entry by entry, at every polarization [p],
    channel [ch] and sample [i], from the entries of [data],
    [model_data] and [weight]. *)
Theorem sigma_scatter_round_trip (d : Z) (t t' : T) (q : Query R C)
    (c n : nat) :
  fetch_columns d t = (Ret q, t') ->
  wf_query c n q = true ->
  (forall row w, In row (q_weight q) -> In w row -> 0 < w) ->
  let sigma := sigma_of (q_weight q) 1 in
  sigma = map (map (fun w => sqrt (1 / w))) (q_weight q) /\
  exists residuals sx sy,
    elementwise3 Cminus (q_data q) (q_model_data q) = Ret residuals /\
    get_scatter_datadescid d 1 false t = (Ret (Arr2 sx, Arr2 sy), t') /\
    elementwise3 (fun z s => Cdiv z (RtoC s)) residuals (newaxis1 sigma)
    = Ret [sx; sy] /\
    elementwise3 (fun z s => Cmult z (RtoC s)) [sx; sy] (newaxis1 sigma)
    = Ret residuals /\
    has_shape3 2 c n residuals = true /\
    has_shape2 2 n sigma = true /\
    has_shape2 c n sx = true /\ has_shape2 c n sy = true /\
    forall p ch i, (p < 2)%nat -> (ch < c)%nat -> (i < n)%nat ->
      let res := Cminus (entry3 (q_data q) p ch i)
                        (entry3 (q_model_data q) p ch i) in
      let s := entry2 sigma p i in
      let z := entry3 [sx; sy] p ch i in
      s = sqrt (1 / entry2 (q_weight q) p i) /\ 0 < s /\
      entry3 residuals p ch i = res /\
      z = Cdiv res (RtoC s) /\
      Cmult z (RtoC s) = res.
Proof.
  intros Hf Hwf Hpos sigma.
  assert (Hsigma : sigma = map (map (fun w => sqrt (1 / w))) (q_weight q)).
  { unfold sigma, sigma_of. rewrite map_map. apply map_ext. intros row.
    rewrite map_map. apply map_ext. intros w. simpl. ring. }
  split; [exact Hsigma|].
  destruct (round_trip_arrays d t t' q c n Hf Hwf Hpos)
    as (Hres & Hcall & Hdiv & Hmul).
  fold sigma in Hdiv, Hmul.
  do 3 eexists.
  split; [exact Hres|]. split; [exact Hcall|].
  split; [exact Hdiv|]. split; [exact Hmul|].
  destruct (wf_query_inv _ _ _ Hwf)
    as (d0 & d1 & m0 & m1 & w0 & w1 & f0 & f1 &
        Ed & Em & Ew & Ef & Hd0 & Hd1 & Hm0 & Hm1 & Hw0 & Hw1 & _).
  pose proof (spec_scatter_shape c n 1 q 0 Hwf Nat.lt_0_2) as S0.
  pose proof (spec_scatter_shape c n 1 q 1 Hwf Nat.lt_1_2) as S1.
  split.
  { rewrite Ed, Em. cbn [nth]. unfold has_shape3. cbn [List.length forallb].
    rewrite !map2_shape2 by assumption. reflexivity. }
  split.
  { rewrite Hsigma, Ew. cbn [map]. apply has_shape2_spec.
    split; [reflexivity|].
    intros row [<-|[<-|[]]]; now rewrite length_map. }
  split; [exact S0|]. split; [exact S1|].
  intros p ch i Hp Hch Hi res s z.
  assert (Hw : List.length (nth p (q_weight q) []) = n).
  { rewrite Ew. destruct p as [|[|p]]; [| |lia]; assumption. }
  assert (Hs : s = sqrt (1 / entry2 (q_weight q) p i)).
  { unfold s, entry2. rewrite Hsigma.
    change (@nil R) with (map (fun w => sqrt (1 / w)) []) at 1.
    rewrite map_nth.
    apply (nth_map_lt (fun w => sqrt (1 / w)) _ i 0 0). lia. }
  assert (Hpos_s : 0 < s).
  { rewrite Hs. apply sqrt_lt_R0. unfold Rdiv. rewrite Rmult_1_l.
    apply Rinv_0_lt_compat. unfold entry2.
    apply (Hpos (nth p (q_weight q) [])).
    - apply nth_In. rewrite Ew. exact Hp.
    - apply nth_In. lia. }
  assert (Hz : z = Cdiv res (RtoC s)).
  { unfold z, res, entry3. rewrite Hs. unfold entry2, spec_scatter.
    rewrite Ed, Em, Ew.
    destruct p as [|[|p]]; [| |lia]; cbn [nth];
      rewrite (spec_scatter_pol_entry c n ch i 1) by assumption;
      now rewrite Rmult_1_r. }
  repeat split; trivial.
  - unfold res, entry3. rewrite Ed, Em.
    destruct p as [|[|p]]; [| |lia]; cbn [nth];
      now apply (residual_entry c n).
  - rewrite Hz. apply Cdiv_Cmult_cancel. lra.
Qed.

Lemma spec_scatter_pol_rescale (r k : R) (d m : list (list C))
    (w : list R) :
  (forall x, In x w -> 0 < x) -> 0 < r -> 0 < k ->
  spec_scatter_pol (k * r) d m w
  = map (map (fun z => Cdiv z (RtoC k))) (spec_scatter_pol r d m w).
Proof.
  intros Hpos Hr Hk. unfold spec_scatter_pol. rewrite map_map2.
  apply map2_ext. intros drow mrow _ _. rewrite map_map2.
  apply map2_ext. intros z x _ Hx. simpl.
  replace (sqrt (1 / x) * (k * r)) with (sqrt (1 / x) * r * k) by ring.
  apply Cdiv_rescale; apply Rgt_not_eq, Rlt_gt; trivial.
  apply sigma_entry_pos; auto.
Qed.

(** C4: with strictly positive weights, multiplying [sigma_rescale]
    by a factor [k] (doubling is [k = 2]) multiplies every entry of
    the noise estimate by [k] and divides every entry of the returned
    scatter by [k], with or without the flags applied. *)
Theorem rescale_linearity (d : Z) (t t' : T) (q : Query R C) (c n : nat)
    (r k : R) (af : bool) :
  fetch_columns d t = (Ret q, t') ->
  wf_query c n q = true ->
  (forall row w, In row (q_weight q) -> In w row -> 0 < w) ->
  0 < r -> 0 < k ->
  sigma_of (q_weight q) (k * r)
  = map (map (fun s => k * s)) (sigma_of (q_weight q) r) /\
  exists a b,
    get_scatter_datadescid d r af t = (Ret (a, b), t') /\
    get_scatter_datadescid d (k * r) af t
    = (Ret (ndmap (fun z => Cdiv z (RtoC k)) a,
            ndmap (fun z => Cdiv z (RtoC k)) b), t').
Proof.
  intros Hf Hwf Hpos Hr Hk. split.
  { unfold sigma_of. rewrite !map_map. apply map_ext. intros row.
    rewrite !map_map. apply map_ext. intros w. simpl. ring. }
  destruct (wf_query_inv _ _ _ Hwf)
    as (d0 & d1 & m0 & m1 & w0 & w1 & f0 & f1 &
        Ed & Em & Ew & Ef & _).
  assert (E : forall p : nat, (p < 2)%nat ->
              spec_scatter (k * r) q p
              = map (map (fun z => Cdiv z (RtoC k))) (spec_scatter r q p)).
  { intros p Hp. unfold spec_scatter.
    apply spec_scatter_pol_rescale; trivial.
    intros x Hx. apply (Hpos (nth p (q_weight q) [])); trivial.
    apply nth_In. rewrite Ew. exact Hp. }
  rewrite !(get_scatter_fetched d _ af t t' q Hf).
  destruct af.
  - rewrite !(scatter_of_query_flagged c n _ q Hwf).
    do 2 eexists. split; [reflexivity|].
    rewrite !E by lia. simpl ndmap.
    now rewrite <- !concat_map, !select_map.
  - rewrite !(scatter_of_query_unflagged c n _ q Hwf).
    do 2 eexists. split; [reflexivity|].
    now rewrite !E by lia.
Qed.

Lemma sqrt_quarter : sqrt (1 / 4) = / 2.
Proof.
  replace (1 / 4) with (/ 2 * / 2) by lra. apply sqrt_square. lra.
Qed.

Lemma sqrt_one_over_one : sqrt (1 / 1) = 1.
Proof. replace (1 / 1) with 1 by lra. apply sqrt_1. Qed.

(** The scenario on the columns alone: the second polarization has
    weight 4, hence noise estimate 1/2 and scatter 8, 0, -8. *)
Lemma scenario_values (q : Query R C) :
  wf_query 1 3 q = true ->
  q_weight q = [ [1; 1; 1]; [4; 4; 4] ] ->
  elementwise3 Cminus (q_data q) (q_model_data q)
  = Ret [ [ [RtoC 2; RtoC 0; RtoC (-2)] ];
          [ [RtoC 4; RtoC 0; RtoC (-4)] ] ] ->
  sigma_of (q_weight q) 1 = [ [1; 1; 1]; [/ 2; / 2; / 2] ] /\
  spec_scatter 1 q 0 = [ [RtoC 2; RtoC 0; RtoC (-2)] ] /\
  spec_scatter 1 q 1 = [ [RtoC 8; RtoC 0; RtoC (-8)] ].
Proof.
  intros Hwf Hw Hres.
  rewrite (residuals_shaped 1 3 q Hwf) in Hres.
  injection Hres as R0 R1.
  unfold spec_scatter. rewrite !spec_scatter_pol_residuals.
  change (@k_sub R C RNum) with Cminus. rewrite R0, R1, Hw.
  unfold sigma_of. simpl.
  rewrite sqrt_one_over_one, sqrt_quarter.
  repeat split; repeat f_equal; try lra;
    apply C_eq; simpl; field.
Qed.

(** C1, as the code has it: in the scenario with weights
    [[1,1,1],[4,4,4]] and residuals [[2,0,-2],[4,0,-4]] the noise
    estimate of the second polarization is 1/2, not 2, and the call
    returns the scatter [[2,0,-2]] and [[8,0,-8]]; with all flags
    false and [apply_flags = true] it returns the same entries as
    one-dimensional arrays. *)
Theorem end_to_end_scenario (d : Z) (t t' : T) (q : Query R C) :
  fetch_columns d t = (Ret q, t') ->
  wf_query 1 3 q = true ->
  q_weight q = [ [1; 1; 1]; [4; 4; 4] ] ->
  elementwise3 Cminus (q_data q) (q_model_data q)
  = Ret [ [ [RtoC 2; RtoC 0; RtoC (-2)] ];
          [ [RtoC 4; RtoC 0; RtoC (-4)] ] ] ->
  sigma_of (q_weight q) 1 = [ [1; 1; 1]; [/ 2; / 2; / 2] ] /\
  get_scatter_datadescid d 1 false t
  = (Ret (Arr2 [ [RtoC 2; RtoC 0; RtoC (-2)] ],
          Arr2 [ [RtoC 8; RtoC 0; RtoC (-8)] ]), t') /\
  (all_false2 (flag_pol q 0) = true -> all_false2 (flag_pol q 1) = true ->
   get_scatter_datadescid d 1 true t
   = (Ret (Arr1 [RtoC 2; RtoC 0; RtoC (-2)],
           Arr1 [RtoC 8; RtoC 0; RtoC (-8)]), t')).
Proof.
  intros Hf Hwf Hw Hres.
  destruct (scenario_values q Hwf Hw Hres) as (Hs & S0 & S1).
  split; [exact Hs|].
  rewrite !(get_scatter_fetched d 1 _ t t' q Hf). split.
  - rewrite (scatter_of_query_unflagged 1 3 1 q Hwf). now rewrite S0, S1.
  - intros F0 F1. rewrite (scatter_of_query_clear 1 3 1 q Hwf F0 F1).
    now rewrite S0, S1.
Qed.

End RealClaims.

(** ** The reference Gaussian *)

Section Gaussian.
Local Open Scope R_scope.

Lemma PI_7_digits : 3.1415926 < PI < 3.1415927.
Proof.
  pose proof (PI_2_3_7_ineq 4) as [Hlo Hhi].
  unfold sum_f_R0, tg_alt, PI_2_3_7_tg, Ratan_seq in Hlo, Hhi.
  simpl in Hlo, Hhi. split; lra.
Qed.

Lemma inv_sqrt_2PI_bounds :
  0.39894225 < 1 / sqrt (2 * PI) < 0.39894235.
Proof.
  pose proof PI_7_digits as [Hlo Hhi].
  assert (Hs : 0 < sqrt (2 * PI)) by (apply sqrt_lt_R0; lra).
  assert (Hsq : forall a,
             (a * sqrt (2 * PI)) * (a * sqrt (2 * PI)) = a * a * (2 * PI)).
  { intros a. rewrite <- (sqrt_sqrt (2 * PI)) at 3 by lra. ring. }
  set (s := sqrt (2 * PI)) in *.
  split; apply Rmult_lt_reg_r with s; trivial;
    unfold Rdiv; rewrite Rmult_1_l, Rinv_l by lra.
  - destruct (Rlt_or_le (0.39894225 * s) 1) as [H|H]; trivial.
    exfalso. pose proof (Hsq 0.39894225) as E.
    assert (1 * 1 <= 0.39894225 * s * (0.39894225 * s))
      by (apply Rmult_le_compat; lra).
    lra.
  - destruct (Rlt_or_le 1 (0.39894235 * s)) as [H|H]; trivial.
    exfalso. pose proof (Hsq 0.39894235) as E.
    assert (0.39894235 * s * (0.39894235 * s) <= 1 * 1)
      by (apply Rmult_le_compat; lra).
    lra.
Qed.

(** C7: [gaussian] is the standard normal density,
    [gaussian x = 1 / sqrt (2 pi) * exp (- x^2 / 2)]; at zero it is
    [1 / sqrt (2 pi)], which is 0.3989423 to seven decimal places. *)
Theorem gaussian_standard_normal :
  (forall x : R, gaussian x = 1 / sqrt (2 * PI) * exp (- x ^ 2 / 2)) /\
  gaussian 0 = 1 / sqrt (2 * PI) /\
  Rabs (gaussian 0 - 0.3989423) < 0.00000005.
Proof.
  assert (G : forall x : R,
             gaussian x = 1 / sqrt (2 * PI) * exp (- x ^ 2 / 2)).
  { intros x. unfold gaussian. cbn [f_mul f_div f_of_Z f_sqrt f_pi f_exp
                                     f_of_Q f_pow RNum].
    do 2 f_equal. unfold Q2R. simpl. field. }
  assert (G0 : gaussian 0 = 1 / sqrt (2 * PI)).
  { rewrite G. replace (- 0 ^ 2 / 2) with 0 by (simpl; field).
    rewrite exp_0. ring. }
  repeat split; trivial.
  rewrite G0. pose proof inv_sqrt_2PI_bounds as [Hlo Hhi].
  apply Rabs_def1; lra.
Qed.

End Gaussian.

(** ** The synthetic window, worked through *)

Section Scenario.
Local Open Scope R_scope.

Lemma example_residuals :
  elementwise3 Cminus (q_data example_query) (q_model_data example_query)
  = Ret [ [ [RtoC 2; RtoC 0; RtoC (-2)] ];
          [ [RtoC 4; RtoC 0; RtoC (-4)] ] ].
Proof.
  cbv [elementwise3 broadcast zipM obind example_query q_data q_model_data
       List.length Nat.eqb Cminus RtoC Re Im].
  repeat f_equal; lra.
Qed.

Lemma example_weights_positive :
  forall row w, In row (q_weight example_query) -> In w row -> 0 < w.
Proof.
  intros row w [<-|[<-|[]]] Hw; simpl in Hw;
    repeat (destruct Hw as [<-|Hw]; [lra|]); contradiction.
Qed.

(** What the call returns on the synthetic window. *)
Lemma example_call (af : bool) :
  get_scatter_datadescid (tool := SimMs example_table) 0 1 af sim_closed
  = (Ret (if af
          then (Arr1 [RtoC 2; RtoC 0; RtoC (-2)],
                Arr1 [RtoC 8; RtoC 0; RtoC (-8)])
          else (Arr2 [ [RtoC 2; RtoC 0; RtoC (-2)] ],
                Arr2 [ [RtoC 8; RtoC 0; RtoC (-8)] ])),
     sim_closed).
Proof.
  rewrite (get_scatter_fetched (tool := SimMs example_table)
             0 1 af sim_closed sim_closed example_query eq_refl).
  destruct (scenario_values example_query eq_refl eq_refl example_residuals)
    as (_ & S0 & S1).
  destruct af.
  - rewrite (scatter_of_query_clear 1 3 1 example_query eq_refl
               eq_refl eq_refl).
    now rewrite S0, S1.
  - rewrite (scatter_of_query_unflagged 1 3 1 example_query eq_refl).
    now rewrite S0, S1.
Qed.

(** C1, as stated, fails on the code: the scatter of the second
    polarization is not [2, 0, -2] and its noise estimate is not 2. *)
Lemma scenario_second_polarization_differs :
  get_scatter_datadescid (tool := SimMs example_table) 0 1 false sim_closed
  <> (Ret (Arr2 [ [RtoC 2; RtoC 0; RtoC (-2)] ],
           Arr2 [ [RtoC 2; RtoC 0; RtoC (-2)] ]), sim_closed) /\
  get_scatter_datadescid (tool := SimMs example_table) 0 1 true sim_closed
  <> (Ret (Arr1 [RtoC 2; RtoC 0; RtoC (-2)],
           Arr1 [RtoC 2; RtoC 0; RtoC (-2)]), sim_closed) /\
  sigma_of (q_weight example_query) 1 <> [ [1; 1; 1]; [2; 2; 2] ].
Proof.
  rewrite !example_call. repeat split; intros H.
  - injection H as H. lra.
  - injection H as H. lra.
  - destruct (scenario_values example_query eq_refl eq_refl
                example_residuals) as (Hs & _).
    rewrite Hs in H. injection H as H. lra.
Qed.

Lemma end_to_end_scenario_witness :
  fetch_columns (tool := SimMs example_table) 0 sim_closed
  = (Ret example_query, sim_closed) /\
  wf_query 1 3 example_query = true /\
  sigma_of (q_weight example_query) 1 = [ [1; 1; 1]; [/ 2; / 2; / 2] ] /\
  get_scatter_datadescid (tool := SimMs example_table) 0 1 false sim_closed
  = (Ret (Arr2 [ [RtoC 2; RtoC 0; RtoC (-2)] ],
          Arr2 [ [RtoC 8; RtoC 0; RtoC (-8)] ]), sim_closed) /\
  get_scatter_datadescid (tool := SimMs example_table) 0 1 true sim_closed
  = (Ret (Arr1 [RtoC 2; RtoC 0; RtoC (-2)],
          Arr1 [RtoC 8; RtoC 0; RtoC (-8)]), sim_closed).
Proof.
  destruct (end_to_end_scenario (tool := SimMs example_table)
              0 sim_closed sim_closed example_query
              eq_refl eq_refl eq_refl example_residuals)
    as (Hs & Hc & Hm).
  repeat split; try reflexivity; try assumption.
  apply Hm; reflexivity.
Defined.

End Scenario.

(** ** Instances on the in-memory measurement sets *)

Section Instances.
Local Open Scope R_scope.

Lemma missing_model_data_raises_witness :
  fetch_columns (tool := SimMs unmodelled_table) 0 sim_closed
  = (Ret unmodelled_query, sim_closed) /\
  List.length (q_model_data unmodelled_query) = 0%nat /\
  get_scatter_datadescid (tool := SimMs unmodelled_table) 0 1 true sim_closed
  = (Raise MissingModelData, sim_closed).
Proof.
  split; [reflexivity|]. split; [reflexivity|].
  apply (missing_model_data_raises (tool := SimMs unmodelled_table)
           0 1 true sim_closed sim_closed unmodelled_query);
    reflexivity.
Defined.

Lemma sigma_scatter_round_trip_witness :
  wf_query 1 3 example_query = true /\
  exists residuals sx sy,
    elementwise3 Cminus (q_data example_query) (q_model_data example_query)
    = Ret residuals /\
    get_scatter_datadescid (tool := SimMs example_table) 0 1 false sim_closed
    = (Ret (Arr2 sx, Arr2 sy), sim_closed) /\
    elementwise3 (fun z s => Cmult z (RtoC s)) [sx; sy]
      (newaxis1 (sigma_of (q_weight example_query) 1))
    = Ret residuals /\
    has_shape2 1 3 sx = true /\ has_shape2 1 3 sy = true /\
    entry3 [sx; sy] 1 0 0
    = Cdiv (Cminus (entry3 (q_data example_query) 1 0 0)
                   (entry3 (q_model_data example_query) 1 0 0))
           (RtoC (entry2 (sigma_of (q_weight example_query) 1) 1 0)) /\
    Cmult (entry3 [sx; sy] 1 0 0)
          (RtoC (entry2 (sigma_of (q_weight example_query) 1) 1 0))
    = Cminus (entry3 (q_data example_query) 1 0 0)
             (entry3 (q_model_data example_query) 1 0 0).
Proof.
  split; [reflexivity|].
  destruct (sigma_scatter_round_trip (tool := SimMs example_table)
              0 sim_closed sim_closed example_query 1 3
              eq_refl eq_refl example_weights_positive)
    as (_ & residuals & sx & sy & H1 & H2 & _ & H4 & _ & _ & Sx & Sy & E).
  exists residuals, sx, sy.
  destruct (E 1%nat 0%nat 0%nat) as (_ & _ & _ & Ez & Em); try lia.
  repeat split; assumption.
Defined.

Lemma rescale_linearity_witness :
  wf_query 1 3 example_query = true /\ 0 < 1 /\ 0 < 2 /\
  sigma_of (q_weight example_query) (2 * 1)
  = map (map (fun s => 2 * s)) (sigma_of (q_weight example_query) 1) /\
  exists a b,
    get_scatter_datadescid (tool := SimMs example_table) 0 1 true sim_closed
    = (Ret (a, b), sim_closed) /\
    get_scatter_datadescid (tool := SimMs example_table) 0 (2 * 1) true
                           sim_closed
    = (Ret (ndmap (fun z => Cdiv z (RtoC 2)) a,
            ndmap (fun z => Cdiv z (RtoC 2)) b), sim_closed).
Proof.
  split; [reflexivity|]. split; [lra|]. split; [lra|].
  apply (rescale_linearity (tool := SimMs example_table)
           0 sim_closed sim_closed example_query 1 3 1 2 true);
    try reflexivity; try lra.
  exact example_weights_positive.
Defined.

Lemma unflagged_mask_is_flatten_witness :
  wf_query 1 3 example_query = true /\
  all_false2 (flag_pol example_query 0) = true /\
  all_false2 (flag_pol example_query 1) = true /\
  exists a b,
    get_scatter_datadescid (tool := SimMs example_table) 0 1 false sim_closed
    = (Ret (a, b), sim_closed) /\
    get_scatter_datadescid (tool := SimMs example_table) 0 1 true sim_closed
    = (Ret (Arr1 (flatten a), Arr1 (flatten b)), sim_closed).
Proof.
  do 3 (split; [reflexivity|]).
  destruct (unflagged_mask_is_flatten (tool := SimMs example_table)
              0 1 sim_closed sim_closed example_query 1 3
              eq_refl eq_refl)
    as (a & b & a' & b' & Hu & Hm & Ha & Hb).
  exists a, b. split; [exact Hu|].
  rewrite Hm, (Ha eq_refl), (Hb eq_refl). reflexivity.
Defined.

Lemma all_flagged_is_empty_witness :
  wf_query 1 3 flagged_query = true /\
  all_true2 (flag_pol flagged_query 0) = true /\
  exists b',
    get_scatter_datadescid (tool := SimMs flagged_table) 0 1 true sim_closed
    = (Ret (Arr1 [], b'), sim_closed).
Proof.
  do 2 (split; [reflexivity|]).
  destruct (all_flagged_is_empty_and_unflagged_keeps_shape
              (tool := SimMs flagged_table)
              0 1 sim_closed sim_closed flagged_query 1 3
              eq_refl eq_refl)
    as ((a' & b' & Hm & Ha & _) & _).
  exists b'. rewrite Hm, (Ha eq_refl). reflexivity.
Defined.

Lemma masked_entries_row_major_witness :
  wf_query 1 3 flagged_query = true /\
  exists vx vy,
    get_scatter_datadescid (tool := SimMs flagged_table) 0 1 true sim_closed
    = (Ret (Arr1 vx, Arr1 vy), sim_closed) /\
    List.length vx = 0%nat /\ List.length vy = 2%nat.
Proof.
  split; [reflexivity|].
  destruct (masked_entries_row_major (tool := SimMs flagged_table)
              0 1 sim_closed sim_closed flagged_query 1 3
              eq_refl eq_refl)
    as (sx & sy & vx & vy & _ & Hm & _ & _ & Lx & Ly).
  exists vx, vy. repeat split; assumption.
Defined.

Lemma store_released_after_fetch_witness :
  (fetch_columns (tool := SimMs example_table) 0 sim_closed
   = (Ret example_query, sim_closed) /\
   exists res,
     get_scatter_datadescid (tool := SimMs example_table) 0 1 true sim_closed
     = (res, sim_closed) /\
     sim_opened sim_closed = false) /\
  get_scatter_datadescid (tool := FaultyMs 0 example_query) 0 1 true sim_closed
  = (Raise store_failure, sim_closed) /\
  get_scatter_datadescid (tool := FaultyMs 1 example_query) 0 1 true sim_closed
  = (Raise store_failure, {| sim_opened := true; sim_selected := None |}) /\
  get_scatter_datadescid (tool := FaultyMs 2 example_query) 0 1 true sim_closed
  = (Raise store_failure,
     {| sim_opened := true; sim_selected := Some 0%Z |}) /\
  get_scatter_datadescid (tool := FaultyMs 3 example_query) 0 1 true sim_closed
  = (Raise store_failure,
     {| sim_opened := true; sim_selected := Some 0%Z |}) /\
  get_scatter_datadescid (tool := FaultyMs 4 example_query) 0 1 true sim_closed
  = (Raise store_failure, {| sim_opened := true; sim_selected := None |}).
Proof.
  split.
  { split; [reflexivity|].
    destruct (store_released_after_fetch (tool := SimMs example_table)
                (laws := SimMs_laws example_table) 0 1 true sim_closed)
      as (Hok & _).
    destruct (Hok example_query sim_closed eq_refl)
      as (res & Hres & Hclosed & _).
    exists res. split; assumption. }
  split.
  { destruct (store_released_after_fetch
                (tool := FaultyMs 0 example_query)
                (laws := FaultyMs_laws 0 example_query) 0 1 true sim_closed)
      as (_ & H & _).
    apply H. reflexivity. }
  split.
  { destruct (store_released_after_fetch
                (tool := FaultyMs 1 example_query)
                (laws := FaultyMs_laws 1 example_query) 0 1 true sim_closed)
      as (_ & _ & H & _).
    eapply H; reflexivity. }
  split.
  { destruct (store_released_after_fetch
                (tool := FaultyMs 2 example_query)
                (laws := FaultyMs_laws 2 example_query) 0 1 true sim_closed)
      as (_ & _ & _ & H & _).
    eapply H; reflexivity. }
  split.
  { destruct (store_released_after_fetch
                (tool := FaultyMs 3 example_query)
                (laws := FaultyMs_laws 3 example_query) 0 1 true sim_closed)
      as (_ & _ & _ & _ & H & _).
    eapply H; reflexivity. }
  destruct (store_released_after_fetch
              (tool := FaultyMs 4 example_query)
              (laws := FaultyMs_laws 4 example_query) 0 1 true sim_closed)
    as (_ & _ & _ & _ & _ & H).
  eapply H; reflexivity.
Defined.

(** C9, as stated, fails on the code: a negative window selector is
    refused by [ms.selectinit], and the exception leaves the function
    with the connection still open. *)
Lemma store_left_open_on_failure :
  get_scatter_datadescid (tool := SimMs example_table) (-1) 1 true sim_closed
  = (Raise (Exn RuntimeError "selectinit failed"),
     {| sim_opened := true; sim_selected := None |}) /\
  ms_is_open (MsTool := SimMs example_table)
    (snd (get_scatter_datadescid (tool := SimMs example_table) (-1) 1 true
                                 sim_closed))
  = true.
Proof. split; reflexivity. Qed.

Lemma orchestrator_flattens_and_labels_witness :
  get_scatter_datadescid (tool := SimMs example_table) 0 1 false
                         (w_ms empty_world)
  = (Ret (Arr2 [ [RtoC 2; RtoC 0; RtoC (-2)] ],
          Arr2 [ [RtoC 8; RtoC 0; RtoC (-8)] ]), sim_closed) /\
  exists fig,
    plot_histogram_datadescid (tool := SimMs example_table) 0 1 false false
                              empty_world
    = (Ret tt, {| w_ms := sim_closed; w_figures := [fig] |}) /\
    map (@ax_hist R) (fig_axes fig)
    = [ [2; 0; -2]; [0; 0; 0]; [8; 0; -8]; [0; 0; 0] ] /\
    fig_suptitle fig = Some "DATA_DESC_ID: 0"%string.
Proof.
  split; [exact (example_call false)|].
  destruct (orchestrator_flattens_and_labels (tool := SimMs example_table)
              0 1 false false empty_world _ sim_closed (example_call false))
    as (_ & fig & Hp & Hh & Ht).
  exists fig. repeat split; assumption.
Defined.

End Instances.

(** * Further properties of the script *)

(** ** Columns of any number of polarizations *)

Lemma has_shape3_spec {A : Type} (p c n : nat) (a : list (list (list A))) :
  has_shape3 p c n a = true <->
  List.length a = p /\ forall x, In x a -> has_shape2 c n x = true.
Proof.
  unfold has_shape3. rewrite andb_true_iff, Nat.eqb_eq, forallb_forall.
  reflexivity.
Qed.

Lemma zipM_map_r {A B B' C : Type} (g : A -> B' -> outcome C) (h : B -> B')
    (xs : list A) (ys : list B) :
  zipM g xs (map h ys) = zipM (fun x y => g x (h y)) xs ys.
Proof.
  revert ys. induction xs as [|x xs IH]; intros [|y ys]; simpl; trivial.
  now rewrite IH.
Qed.

Lemma elementwise3_shaped {A B C : Type} (f : A -> B -> C) (p c n : nat)
    (a : list (list (list A))) (b : list (list (list B))) :
  has_shape3 p c n a = true -> has_shape3 p c n b = true ->
  elementwise3 f a b = Ret (map2 (map2 (map2 f)) a b).
Proof.
  intros Ha Hb.
  apply has_shape3_spec in Ha as [La Sa], Hb as [Lb Sb].
  unfold elementwise3. rewrite broadcast_same_length by congruence.
  apply zipM_pure. intros x y Hx Hy.
  apply (broadcast2_shaped f c n); auto.
Qed.

Lemma elementwise3_rows {A B C : Type} (f : A -> B -> C) (p c n : nat)
    (a : list (list (list A))) (s : list (list B)) :
  has_shape3 p c n a = true -> has_shape2 p n s = true ->
  elementwise3 f a (newaxis1 s)
  = Ret (map2 (fun x row => map (fun r => map2 f r row) x) a s).
Proof.
  intros Ha Hs.
  apply has_shape3_spec in Ha as [La Sa].
  apply has_shape2_spec in Hs as [Ls Rs].
  unfold elementwise3, newaxis1.
  rewrite broadcast_same_length by (rewrite length_map; congruence).
  rewrite zipM_map_r. apply zipM_pure. intros x row Hx Hrow.
  apply (broadcast2_row f c n); auto.
Qed.

Lemma map2_shape3 {A B C : Type} (f : A -> B -> C) (p c n : nat) a b :
  has_shape3 p c n a = true -> has_shape3 p c n b = true ->
  has_shape3 p c n (map2 (map2 (map2 f)) a b) = true.
Proof.
  intros Ha Hb.
  apply has_shape3_spec in Ha as [La Sa], Hb as [Lb Sb].
  apply has_shape3_spec. split.
  - rewrite map2_length; congruence.
  - intros z Hz. apply in_map2 in Hz as (x & y & Hx & Hy & ->).
    apply map2_shape2; auto.
Qed.

Section AnyPolarizations.
Context {T F K : Type} {num : NumOps F K} {tool : MsTool T F K}.

Lemma sigma_of_shape (p n : nat) (w : list (list F)) (r : F) :
  has_shape2 p n w = true -> has_shape2 p n (sigma_of w r) = true.
Proof.
  intros H. apply has_shape2_spec in H as [L Rw]. apply has_shape2_spec.
  unfold sigma_of. rewrite !length_map. split; trivial.
  intros row Hin. apply in_map_iff in Hin as (r1 & <- & Hin).
  apply in_map_iff in Hin as (r0 & <- & Hin).
  rewrite !length_map. now apply Rw.
Qed.

(** The array [scatter] of line 234 has one plane per polarization
    of the columns. *)
Lemma scatter_array_planes (p c n : nat) (r : F) (q : Query F K) :
  wf_columns p c n q = true ->
  exists scatter,
    obind (elementwise3 k_sub (q_data q) (q_model_data q))
          (fun residuals =>
             elementwise3 k_div_f residuals
                          (newaxis1 (sigma_of (q_weight q) r)))
    = Ret scatter /\ List.length scatter = p.
Proof.
  unfold wf_columns. intros H.
  apply andb_true_iff in H as [H _].
  apply andb_true_iff in H as [H Hw].
  apply andb_true_iff in H as [Hd Hm].
  rewrite (elementwise3_shaped k_sub p c n) by assumption. cbn [obind].
  rewrite (elementwise3_rows k_div_f p c n);
    [| now apply map2_shape3 | now apply sigma_of_shape].
  eexists. split; [reflexivity|].
  apply has_shape3_spec in Hd as [Ld _], Hm as [Lm _].
  apply (sigma_of_shape p n _ r) in Hw.
  apply has_shape2_spec in Hw as [Lw _].
  rewrite map2_length; rewrite map2_length; congruence.
Qed.

(** X3: The function is written for two polarizations: on well-shaped
    columns of one polarization, or of three and more, the unpacking
    of line 237 raises [ValueError], with or without the flags. *)
Theorem other_polarization_counts_raise (d : Z) (r : F) (af : bool)
    (t t' : T) (q : Query F K) (p c n : nat) :
  fetch_columns d t = (Ret q, t') ->
  wf_columns p c n q = true ->
  (p = 1 ->
   get_scatter_datadescid d r af t
   = (Raise (Exn ValueError
               "not enough values to unpack (expected 2, got 1)"),
      t')) /\
  (3 <= p ->
   get_scatter_datadescid d r af t
   = (Raise (Exn ValueError "too many values to unpack (expected 2)"),
      t')).
Proof.
  intros Hf Hwf. rewrite (get_scatter_fetched d r af t t' q Hf).
  destruct (scatter_array_planes p c n r q Hwf) as (scatter & S & L).
  assert (Lm : List.length (q_model_data q) = p).
  { unfold wf_columns in Hwf.
    apply andb_true_iff in Hwf as [Hwf _].
    apply andb_true_iff in Hwf as [Hwf _].
    apply andb_true_iff in Hwf as [_ Hm].
    now apply has_shape3_spec in Hm as [Lm _]. }
  assert (E : forall e,
             unpack2 scatter = Raise e -> 0 < p ->
             scatter_of_query q r af = Raise e).
  { intros e U Hp. unfold scatter_of_query.
    rewrite Lm. destruct p; [lia|]. cbn [Nat.ltb Nat.leb py_assert obind].
    destruct (elementwise3 k_sub (q_data q) (q_model_data q)) as [res|e'];
      [|discriminate S].
    cbn [obind] in S |- *. rewrite S. cbn [obind]. now rewrite U. }
  split; intros Hp; f_equal; apply E; try lia.
  - destruct scatter as [|x [|y scatter]]; simpl in L; try lia. reflexivity.
  - destruct scatter as [|x [|y [|z scatter]]]; simpl in L; try lia.
    reflexivity.
Qed.

End AnyPolarizations.

(** ** Flags of the wrong shape *)

Lemma has_shape2_cons {A : Type} (c n : nat) (x : list A) (a : list (list A)) :
  has_shape2 (S c) n (x :: a)
  = (List.length x =? n) && has_shape2 c n a.
Proof.
  unfold has_shape2. simpl.
  destruct (List.length a =? c), (List.length x =? n); reflexivity.
Qed.

Lemma has_shape2_map {A B : Type} (f : A -> B) (c n : nat)
    (a : list (list A)) :
  has_shape2 c n (map (map f) a) = has_shape2 c n a.
Proof.
  unfold has_shape2. rewrite length_map. f_equal.
  induction a as [|x a IH]; simpl; trivial.
  now rewrite length_map, IH.
Qed.

Lemma has_shape3_map {A B : Type} (f : A -> B) (p c n : nat)
    (a : list (list (list A))) :
  has_shape3 p c n (map (map (map f)) a) = has_shape3 p c n a.
Proof.
  unfold has_shape3. rewrite length_map. f_equal.
  induction a as [|x a IH]; simpl; trivial.
  now rewrite has_shape2_map, IH.
Qed.

Lemma mask_row_mismatch {A : Type} (row : list A) (m : list bool) :
  List.length row <> List.length m -> mask_row row m = Raise mask_error.
Proof.
  revert m. induction row as [|x row IH]; intros [|b m] H; simpl in *;
    try reflexivity; try contradiction.
  rewrite IH by congruence. reflexivity.
Qed.

(** A mask that has not the shape of the array is refused. *)
Lemma bool_index_mismatch {A : Type} (c n : nat) (a : list (list A))
    (mask : list (list bool)) :
  has_shape2 c n a = true -> has_shape2 c n mask = false ->
  bool_index a mask = Raise mask_error.
Proof.
  revert c mask. induction a as [|row a IH]; intros c mask Ha Hm.
  - destruct mask; [|reflexivity].
    apply has_shape2_spec in Ha as [<- _]. discriminate Hm.
  - destruct mask as [|m mask]; [reflexivity|].
    destruct c as [|c]; [now apply has_shape2_spec in Ha as [? _]|].
    rewrite has_shape2_cons in Ha. rewrite has_shape2_cons in Hm.
    apply andb_true_iff in Ha as [Hrow Ha]. apply Nat.eqb_eq in Hrow.
    simpl. destruct (Nat.eqb_spec (List.length m) n) as [Hlen|Hlen].
    + rewrite mask_row_select by congruence. simpl.
      now rewrite (IH c mask Ha Hm).
    + rewrite mask_row_mismatch by congruence. reflexivity.
Qed.

Section FlagShapes.
Context {T F K : Type} {num : NumOps F K} {tool : MsTool T F K}.

Lemma wf_visibilities_dummy (c n : nat) (q : Query F K) :
  wf_visibilities c n q = true ->
  wf_query c n
    (with_flag q (map (map (map (fun _ => false))) (q_data q))) = true.
Proof.
  unfold wf_visibilities, wf_query, with_flag. cbn [q_data q_model_data
    q_weight q_flag]. intros H. rewrite H, has_shape3_map.
  apply andb_true_iff in H as [H _]. now apply andb_true_iff in H as [-> _].
Qed.

Lemma scatter_array_visibilities (c n : nat) (r : F) (q : Query F K) :
  wf_visibilities c n q = true ->
  obind (elementwise3 k_sub (q_data q) (q_model_data q))
        (fun residuals =>
           elementwise3 k_div_f residuals
                        (newaxis1 (sigma_of (q_weight q) r)))
  = Ret [spec_scatter r q 0; spec_scatter r q 1] /\
  has_shape2 c n (spec_scatter r q 0) = true /\
  has_shape2 c n (spec_scatter r q 1) = true /\
  0 < List.length (q_model_data q).
Proof.
  intros H. apply wf_visibilities_dummy in H.
  repeat split.
  - exact (scatter_array_refines c n r _ H).
  - exact (spec_scatter_shape c n r _ 0 H Nat.lt_0_2).
  - exact (spec_scatter_shape c n r _ 1 H Nat.lt_1_2).
  - destruct (wf_query_inv _ _ _ H)
      as (d0 & d1 & m0 & m1 & w0 & w1 & f0 & f1 & _ & Em & _).
    cbn [with_flag q_model_data] in Em. rewrite Em. simpl. lia.
Qed.

(** On columns whose [flag] is left free, the function reaches the
    unpacking of the flags with the scatter of the specification. *)
Lemma scatter_of_query_visibilities (c n : nat) (r : F) (af : bool)
    (q : Query F K) :
  wf_visibilities c n q = true ->
  scatter_of_query q r af
  = obind (unpack2 (q_flag q))
      (fun '(flag_XX, flag_YY) =>
         if af then
           obind (bool_index (spec_scatter r q 0) (invert flag_XX))
             (fun vx =>
                obind (bool_index (spec_scatter r q 1) (invert flag_YY))
                  (fun vy => Ret (Arr1 vx, Arr1 vy)))
         else Ret (Arr2 (spec_scatter r q 0), Arr2 (spec_scatter r q 1))).
Proof.
  intros H.
  destruct (scatter_array_visibilities c n r q H) as (S & _ & _ & Lm).
  unfold scatter_of_query.
  apply Nat.ltb_lt in Lm. rewrite Lm. cbn [py_assert obind].
  destruct (elementwise3 k_sub (q_data q) (q_model_data q)) as [res|e];
    [|discriminate S].
  cbn [obind] in S |- *. rewrite S. reflexivity.
Qed.

(** X4: Line 238 runs whatever [apply_flags] is: a flag column that has
    not exactly two planes raises [ValueError] even when the flags are
    not applied. *)
Theorem flag_planes_unpacked_unconditionally (d : Z) (r : F) (af : bool)
    (t t' : T) (q : Query F K) (c n : nat) :
  fetch_columns d t = (Ret q, t') ->
  wf_visibilities c n q = true ->
  List.length (q_flag q) <> 2 ->
  exists msg,
    get_scatter_datadescid d r af t = (Raise (Exn ValueError msg), t').
Proof.
  intros Hf Hwf Hlen. rewrite (get_scatter_fetched d r af t t' q Hf).
  rewrite (scatter_of_query_visibilities c n r af q Hwf).
  destruct (q_flag q) as [|f0 [|f1 [|f2 fl]]]; simpl in Hlen;
    try contradiction; eexists; reflexivity.
Qed.

(** X5: A flag plane that has not the shape of its scatter plane raises
    [IndexError] when the flags are applied, and goes unnoticed when
    they are not: the call then returns the unfiltered arrays. *)
Theorem flag_shape_checked_only_when_applied (d : Z) (r : F) (t t' : T)
    (q : Query F K) (c n : nat) (flag_XX flag_YY : list (list bool)) :
  fetch_columns d t = (Ret q, t') ->
  wf_visibilities c n q = true ->
  q_flag q = [flag_XX; flag_YY] ->
  has_shape2 c n flag_XX && has_shape2 c n flag_YY = false ->
  get_scatter_datadescid d r true t = (Raise mask_error, t') /\
  get_scatter_datadescid d r false t
  = (Ret (Arr2 (spec_scatter r q 0), Arr2 (spec_scatter r q 1)), t').
Proof.
  intros Hf Hwf Hfl Hbad. rewrite !(get_scatter_fetched d r _ t t' q Hf).
  rewrite !(scatter_of_query_visibilities c n r _ q Hwf), Hfl.
  cbn [unpack2 obind]. split; [|reflexivity]. f_equal.
  destruct (scatter_array_visibilities c n r q Hwf) as (_ & S0 & S1 & _).
  destruct (has_shape2 c n flag_XX) eqn:HX.
  - rewrite (bool_index_select c n) by auto using invert_shape2.
    cbn [obind]. simpl in Hbad.
    rewrite (bool_index_mismatch c n); trivial.
    unfold invert. now rewrite has_shape2_map.
  - rewrite (bool_index_mismatch c n); trivial.
    unfold invert. now rewrite has_shape2_map.
Qed.

End FlagShapes.

(** ** Failures of the store *)

Section StoreFailures.
Context {T F K : Type} {num : NumOps F K} {tool : MsTool T F K}.

(** X6: Once the measurement set is open, an exception of
    [ms.selectinit] or of [ms.getdata] leaves the function at once:
    the tool stays as the failing call left it, and neither the reset
    nor [ms.close] is called. *)
Theorem store_failure_skips_release (d : Z) (r : F) (af : bool) (t t1 : T) :
  ms_open fname t = (Ret tt, t1) ->
  (forall e t2,
      ms_selectinit d t1 = (Raise e, t2) ->
      get_scatter_datadescid d r af t = (Raise e, t2)) /\
  (forall e t2 t3,
      ms_selectinit d t1 = (Ret tt, t2) ->
      ms_getdata
        ["DATA"; "MODEL_DATA"; "WEIGHT"; "UVW"; "ANTENNA1"; "ANTENNA2"; "FLAG"]
        t2 = (Raise e, t3) ->
      get_scatter_datadescid d r af t = (Raise e, t3)).
Proof.
  intros Hopen. split.
  - intros e t2 Hsel.
    exact (selectinit_failure_propagates d r af t t1 t2 e Hopen Hsel).
  - intros e t2 t3 Hsel Hget.
    exact (getdata_failure_propagates d r af t t1 t2 t3 e Hopen Hsel Hget).
Qed.

End StoreFailures.

(** ** The table probe, continued *)

Section ProbeOutcome.
Context {B F K : Type} {tb : TbTool B F K}.

Lemma probe_table_blocks :
  probe_table
  = try_except_finally probe_try_block RuntimeError
      (print probe_message) (on_tb tb_close).
Proof. reflexivity. Qed.

Lemma on_tb_stdout {A : Type} (c : M B A) (w : probe_world B) :
  pw_stdout (snd (on_tb c w)) = pw_stdout w.
Proof. unfold on_tb. now destruct (c (pw_tb w)). Qed.

Lemma bind_stdout {A A' : Type} (c : M (probe_world B) A)
    (k : A -> M (probe_world B) A') (w : probe_world B) :
  (forall w0, pw_stdout (snd (c w0)) = pw_stdout w0) ->
  (forall a w0, pw_stdout (snd (k a w0)) = pw_stdout w0) ->
  pw_stdout (snd (bind c k w)) = pw_stdout w.
Proof.
  intros Hc Hk. unfold bind. specialize (Hc w).
  destruct (c w) as [[a|e] w1]; simpl in Hc |- *; [|exact Hc].
  now rewrite Hk.
Qed.

(** The [try] block prints nothing. *)
Lemma probe_try_block_silent (w : probe_world B) :
  pw_stdout (snd (probe_try_block w)) = pw_stdout w.
Proof.
  unfold probe_try_block.
  repeat (apply bind_stdout; [intros; apply on_tb_stdout | intros]).
  reflexivity.
Qed.

(** X2: What becomes of an exception of the [try] block: a
    [RuntimeError] is caught, the message is printed once and the
    probe returns normally; an exception of another kind propagates
    and nothing is printed. *)
Theorem probe_catches_runtime_error_only {laws : TbToolLaws tb}
    (w w1 : probe_world B) (e : exn) :
  probe_try_block w = (Raise e, w1) ->
  (exn_kind_of e = RuntimeError ->
   fst (probe_table w) = Ret tt /\
   pw_stdout (snd (probe_table w)) = pw_stdout w ++ [probe_message]) /\
  (exn_kind_of e <> RuntimeError ->
   fst (probe_table w) = Raise e /\
   pw_stdout (snd (probe_table w)) = pw_stdout w).
Proof.
  intros Hbody. pose proof (probe_try_block_silent w) as Hquiet.
  rewrite Hbody in Hquiet. simpl in Hquiet.
  rewrite probe_table_blocks. unfold try_except_finally. rewrite Hbody.
  split; intros Hkind.
  - rewrite Hkind. cbn [exn_kind_eqb print]. unfold on_tb. cbn [pw_tb].
    destruct (tb_close_closes (pw_tb w1)) as (b' & -> & _).
    cbn. now rewrite Hquiet.
  - assert (E : exn_kind_eqb (exn_kind_of e) RuntimeError = false)
      by (destruct (exn_kind_of e); trivial; contradiction).
    rewrite E. unfold on_tb.
    destruct (tb_close_closes (pw_tb w1)) as (b' & -> & _).
    cbn. now rewrite Hquiet.
Qed.

(** When every call of the [try] block returns, the probe returns,
    prints nothing and leaves the table closed. *)
Theorem probe_quiet_on_success {laws : TbToolLaws tb}
    (w w1 : probe_world B) :
  probe_try_block w = (Ret tt, w1) ->
  fst (probe_table w) = Ret tt /\
  pw_stdout (snd (probe_table w)) = pw_stdout w /\
  tb_is_open (pw_tb (snd (probe_table w))) = false.
Proof.
  intros Hbody. pose proof (probe_try_block_silent w) as Hquiet.
  rewrite Hbody in Hquiet. simpl in Hquiet.
  rewrite probe_table_blocks. unfold try_except_finally. rewrite Hbody.
  unfold on_tb.
  destruct (tb_close_closes (pw_tb w1)) as (b' & -> & Hclosed).
  cbn. auto.
Qed.

End ProbeOutcome.

(** ** Successive figures *)

Lemma format_int_inj (d1 d2 : Z) : format_int d1 = format_int d2 -> d1 = d2.
Proof.
  unfold format_int. intros H.
  assert (P : forall d, NilZero.int_of_string
                          (NilZero.string_of_int (Z.to_int d))
                        = Some (Z.to_int d)).
  { intros d. apply NilZero.isi; destruct d; simpl; try discriminate;
      intros [= E]; now apply (DecimalPos.Unsigned.to_uint_nonnil p). }
  apply DecimalZ.to_int_inj.
  pose proof (P d1) as P1. rewrite H, P in P1. now injection P1.
Qed.

Section Figures.
Context {T F K : Type} {num : NumOps F K} {tool : MsTool T F K}.

(** The figure a successful call leaves in the registry. *)
Lemma plot_histogram_returns (d : Z) (r : F) (log af : bool)
    (w : world T F) (sx sy : ndarray K) (t' : T) :
  get_scatter_datadescid d r af (w_ms w) = (Ret (sx, sy), t') ->
  exists fig,
    plot_histogram_datadescid d r log af w
    = (Ret tt, {| w_ms := t'; w_figures := w_figures w ++ [fig] |}) /\
    map (@ax_hist F) (fig_axes fig)
    = [ map k_real (flatten sx); map k_imag (flatten sx);
        map k_real (flatten sy); map k_imag (flatten sy) ] /\
    map (@ax_log F) (fig_axes fig) = [log; log; log; log] /\
    fig_suptitle fig = Some ("DATA_DESC_ID: " ++ format_int d)%string.
Proof.
  intros H. unfold plot_histogram_datadescid, on_ms.
  unfold bind at 1. rewrite H.
  unfold bind, scatter_hist, new_figure, suptitle. cbn.
  rewrite update_nth_last. eexists. repeat split.
Qed.

(** X7: Two calls in a row, as in lines 344-372: the figures are added to
    the registry in the order of the calls, behind the figures that
    were there, and each carries the title of its own window; the
    title set by the second call does not touch the first figure. *)
Theorem successive_plots_keep_their_titles (d1 d2 : Z) (r1 r2 : F)
    (log1 log2 af1 af2 : bool) (w : world T F)
    (sx1 sy1 sx2 sy2 : ndarray K) (t1 t2 : T) :
  get_scatter_datadescid d1 r1 af1 (w_ms w) = (Ret (sx1, sy1), t1) ->
  get_scatter_datadescid d2 r2 af2 t1 = (Ret (sx2, sy2), t2) ->
  exists fig1 fig2,
    (exec plot_histogram_datadescid d1 r1 log1 af1;
     plot_histogram_datadescid d2 r2 log2 af2)%prog w
    = (Ret tt, {| w_ms := t2; w_figures := w_figures w ++ [fig1; fig2] |}) /\
    fig_suptitle fig1 = Some ("DATA_DESC_ID: " ++ format_int d1)%string /\
    fig_suptitle fig2 = Some ("DATA_DESC_ID: " ++ format_int d2)%string /\
    map (@ax_hist F) (fig_axes fig1)
    = [ map k_real (flatten sx1); map k_imag (flatten sx1);
        map k_real (flatten sy1); map k_imag (flatten sy1) ] /\
    map (@ax_hist F) (fig_axes fig2)
    = [ map k_real (flatten sx2); map k_imag (flatten sx2);
        map k_real (flatten sy2); map k_imag (flatten sy2) ] /\
    (d1 <> d2 -> fig_suptitle fig1 <> fig_suptitle fig2).
Proof.
  intros H1 H2.
  destruct (plot_histogram_returns d1 r1 log1 af1 w sx1 sy1 t1 H1)
    as (fig1 & P1 & A1 & _ & S1).
  destruct (plot_histogram_returns d2 r2 log2 af2
              {| w_ms := t1; w_figures := w_figures w ++ [fig1] |}
              sx2 sy2 t2 H2)
    as (fig2 & P2 & A2 & _ & S2).
  exists fig1, fig2. unfold bind at 1. rewrite P1, P2. cbn [w_figures].
  rewrite <- app_assoc. repeat split; trivial.
  intros Hd E. rewrite S1, S2 in E. injection E as E.
  apply Hd, format_int_inj.
  cbn [String.append] in E. repeat (injection E as E). exact E.
Qed.

End Figures.

(** ** The noise estimate, over the real numbers *)

Section Noise.
Context {T : Type} {tool : MsTool T R C}.

Local Open Scope R_scope.

Lemma sigma_of_entries (weight : list (list R)) (r : R) :
  sigma_of weight r = map (map (fun w => sqrt (1 / w) * r)) weight.
Proof.
  unfold sigma_of. rewrite map_map. apply map_ext. intros row.
  now rewrite map_map.
Qed.

(** X8: With positive weights and a positive rescale factor every entry
    of the noise estimate is strictly positive, so that the division of
    line 234 never divides by zero. *)
Theorem noise_estimate_positive (weight : list (list R)) (r : R) :
  (forall row w, In row weight -> In w row -> 0 < w) -> 0 < r ->
  forall row s, In row (sigma_of weight r) -> In s row -> 0 < s.
Proof.
  intros Hpos Hr row s Hrow Hs. rewrite sigma_of_entries in Hrow.
  apply in_map_iff in Hrow as (row0 & <- & Hrow0).
  apply in_map_iff in Hs as (w & <- & Hw).
  apply sigma_entry_pos; eauto.
Qed.

Lemma halved_weight_entry (w : R) :
  0 < w -> sqrt (1 / (w / 2)) * 1 = sqrt (1 / w) * sqrt 2.
Proof.
  intros Hw. replace (1 / (w / 2)) with (1 / w * 2) by (field; lra).
  rewrite sqrt_mult_alt; [ring|].
  unfold Rdiv. rewrite Rmult_1_l. left. now apply Rinv_0_lt_compat.
Qed.

(** X9: Lines 370-372: making the noise estimate a factor [sqrt 2] larger
    is the same as halving the weights.  On positive weights the call
    with [sigma_rescale = sqrt 2] returns what the call with
    [sigma_rescale = 1] returns on the columns with every weight
    divided by 2, whatever the shapes and the outcome. *)
Theorem rescale_sqrt2_is_halving_weights (q : Query R C) (af : bool) :
  (forall row w, In row (q_weight q) -> In w row -> 0 < w) ->
  sigma_of (map (map (fun w => w / 2)) (q_weight q)) 1
  = sigma_of (q_weight q) (sqrt 2) /\
  scatter_of_query (with_weight q (map (map (fun w => w / 2)) (q_weight q)))
                   1 af
  = scatter_of_query q (sqrt 2) af.
Proof.
  intros Hpos.
  assert (E : sigma_of (map (map (fun w => w / 2)) (q_weight q)) 1
              = sigma_of (q_weight q) (sqrt 2)).
  { rewrite !sigma_of_entries, map_map.
    apply map_ext_in. intros row Hrow. rewrite map_map.
    apply map_ext_in. intros w Hw. apply halved_weight_entry. eauto. }
  split; [exact E|].
  unfold scatter_of_query, with_weight.
  cbn [q_data q_model_data q_weight q_flag]. now rewrite E.
Qed.

End Noise.

(** ** A model that fits the data *)

Section ZeroResidual.
Context {T : Type} {tool : MsTool T R C}.

Local Open Scope R_scope.

Lemma Forall_select {A : Type} (P : A -> Prop) (xs : list A)
    (ks : list bool) :
  Forall P xs -> Forall P (select xs ks).
Proof.
  intros H. revert ks. induction H as [|x xs Hx H IH]; intros [|k ks];
    try constructor.
  rewrite select_cons. destruct k; auto.
Qed.

Lemma zero_scatter_entry (z : C) (s : R) :
  Cdiv (Cminus z z) (RtoC s) = RtoC 0.
Proof.
  apply C_eq; destruct z as [a b]; simpl; unfold Rdiv; ring.
Qed.

Lemma map2_diag {A B : Type} (f : A -> A -> B) (l : list A) :
  map2 f l l = map (fun x => f x x) l.
Proof. induction l as [|x l IH]; simpl; congruence. Qed.

Lemma spec_scatter_pol_zero (r : R) (d : list (list C)) (w : list R) :
  Forall (Forall (fun z => z = RtoC 0)) (spec_scatter_pol r d d w).
Proof.
  unfold spec_scatter_pol. rewrite map2_diag.
  apply Forall_forall. intros row Hrow.
  apply in_map_iff in Hrow as (x & <- & _).
  rewrite map2_diag. apply Forall_forall. intros z Hz.
  apply in_map2 in Hz as (res & v & Hres & _ & ->).
  apply in_map_iff in Hres as (u & <- & _).
  apply zero_scatter_entry.
Qed.

(** X10: When the model equals the data on well-shaped columns with
    positive weights, every entry the call returns is zero, with or
    without the flags. *)
Theorem perfect_model_gives_zero_scatter (d : Z) (r : R) (af : bool)
    (t t' : T) (q : Query R C) (c n : nat) :
  fetch_columns d t = (Ret q, t') ->
  wf_query c n q = true ->
  q_model_data q = q_data q ->
  (forall row w, In row (q_weight q) -> In w row -> 0 < w) -> 0 < r ->
  exists a b,
    get_scatter_datadescid d r af t = (Ret (a, b), t') /\
    Forall (fun z => z = RtoC 0) (flatten a) /\
    Forall (fun z => z = RtoC 0) (flatten b).
Proof.
  intros Hf Hwf Hmodel _ _.
  rewrite (get_scatter_fetched d r af t t' q Hf).
  assert (Z : forall p, Forall (fun z => z = RtoC 0)
                               (concat (spec_scatter r q p))).
  { intros p. unfold spec_scatter. rewrite Hmodel.
    apply Forall_concat, spec_scatter_pol_zero. }
  destruct af.
  - rewrite (scatter_of_query_flagged c n r q Hwf).
    do 2 eexists. split; [reflexivity|].
    split; apply Forall_select, Z.
  - rewrite (scatter_of_query_unflagged c n r q Hwf).
    do 2 eexists. split; [reflexivity|]. split; apply Z.
Qed.

End ZeroResidual.

(** ** The reference Gaussian, continued *)

Section GaussianShape.
Local Open Scope R_scope.

Lemma gaussian_formula (x : R) :
  gaussian x = 1 / sqrt (2 * PI) * exp (- x ^ 2 / 2).
Proof.
  unfold gaussian.
  cbn [f_mul f_div f_of_Z f_sqrt f_pi f_exp f_of_Q f_pow RNum].
  do 2 f_equal. unfold Q2R. simpl. field.
Qed.

(** X11: The reference curve is even, strictly positive, and highest at
    zero, where it is strictly larger than anywhere else. *)
Theorem gaussian_even_positive_peaked (x : R) :
  gaussian (- x) = gaussian x /\
  0 < gaussian x /\
  gaussian x <= gaussian 0 /\
  (x <> 0 -> gaussian x < gaussian 0).
Proof.
  rewrite !gaussian_formula.
  assert (Hc : 0 < 1 / sqrt (2 * PI)).
  { apply Rdiv_lt_0_compat; [lra|]. apply sqrt_lt_R0.
    pose proof PI_RGT_0. lra. }
  assert (Hsq : 0 <= x ^ 2) by (simpl; nra).
  assert (H0 : - 0 ^ 2 / 2 = 0) by (simpl; field).
  rewrite H0, exp_0.
  repeat split.
  - replace (- (- x) ^ 2 / 2) with (- x ^ 2 / 2) by (simpl; field).
    reflexivity.
  - apply Rmult_lt_0_compat; [exact Hc | apply exp_pos].
  - apply Rmult_le_compat_l; [lra|].
    rewrite <- exp_0. destruct (Req_dec (x ^ 2) 0) as [E|E].
    + rewrite E. right. f_equal. field.
    + left. apply exp_increasing. lra.
  - intros Hx. apply Rmult_lt_compat_l; [exact Hc|].
    rewrite <- exp_0. apply exp_increasing.
    assert (0 < x ^ 2) by (simpl; nra). lra.
Qed.

End GaussianShape.

(** ** The extent of the image *)

Section Extent.
Local Open Scope R_scope.






End Extent.

(** ** Further instances on the in-memory tools *)

Lemma SimTb_laws {F K : Type} (columns : string -> outcome (column F K)) :
  TbToolLaws (SimTb columns).
Proof. split. intros b. eexists. split; reflexivity. Qed.

Section FurtherInstances.
Local Open Scope R_scope.

Lemma probe_table_closes_witness :
  tb_is_open (TbTool := SimTb heterogeneous_columns)
    (pw_tb (snd (probe_table (tb := SimTb heterogeneous_columns)
                             probe_start)))
  = false.
Proof.
  apply (probe_table_closes (tb := SimTb heterogeneous_columns)
           (laws := SimTb_laws heterogeneous_columns) probe_start).
Defined.

Lemma probe_catches_runtime_error_only_witness :
  (probe_try_block (tb := SimTb heterogeneous_columns) probe_start
   = (Raise (Exn RuntimeError "TSM: no array in row 0"),
      {| pw_tb := {| simtb_opened := true |}; pw_stdout := [] |}) /\
   fst (probe_table (tb := SimTb heterogeneous_columns) probe_start)
   = Ret tt /\
   pw_stdout (snd (probe_table (tb := SimTb heterogeneous_columns)
                               probe_start))
   = [probe_message]) /\
  (probe_try_block (tb := SimTb broken_columns) probe_start
   = (Raise (Exn ValueError "unexpected"),
      {| pw_tb := {| simtb_opened := true |}; pw_stdout := [] |}) /\
   fst (probe_table (tb := SimTb broken_columns) probe_start)
   = Raise (Exn ValueError "unexpected") /\
   pw_stdout (snd (probe_table (tb := SimTb broken_columns) probe_start))
   = []).
Proof.
  split; (split; [reflexivity|]).
  - apply (probe_catches_runtime_error_only
             (tb := SimTb heterogeneous_columns)
             (laws := SimTb_laws heterogeneous_columns)
             probe_start _ _ eq_refl).
    reflexivity.
  - apply (probe_catches_runtime_error_only
             (tb := SimTb broken_columns)
             (laws := SimTb_laws broken_columns)
             probe_start _ _ eq_refl).
    discriminate.
Defined.

Lemma other_polarization_counts_raise_witness :
  (wf_columns 4 1 1 four_pol_query = true /\
   get_scatter_datadescid (tool := SimMs (single_table four_pol_query))
                          0 1 true sim_closed
   = (Raise (Exn ValueError "too many values to unpack (expected 2)"),
      sim_closed)) /\
  (wf_columns 1 1 1 single_pol_query = true /\
   get_scatter_datadescid (tool := SimMs (single_table single_pol_query))
                          0 1 true sim_closed
   = (Raise (Exn ValueError
               "not enough values to unpack (expected 2, got 1)"),
      sim_closed)).
Proof.
  split; (split; [reflexivity|]).
  - apply (other_polarization_counts_raise
             (tool := SimMs (single_table four_pol_query))
             0 1 true sim_closed sim_closed four_pol_query 4 1 1
             eq_refl eq_refl).
    repeat constructor.
  - apply (other_polarization_counts_raise
             (tool := SimMs (single_table single_pol_query))
             0 1 true sim_closed sim_closed single_pol_query 1 1 1
             eq_refl eq_refl).
    reflexivity.
Defined.

Lemma flag_planes_unpacked_unconditionally_witness :
  wf_visibilities 1 3 three_flag_query = true /\
  List.length (q_flag three_flag_query) <> 2%nat /\
  exists msg,
    get_scatter_datadescid (tool := SimMs (single_table three_flag_query))
                           0 1 false sim_closed
    = (Raise (Exn ValueError msg), sim_closed).
Proof.
  split; [reflexivity|]. split; [discriminate|].
  apply (flag_planes_unpacked_unconditionally
           (tool := SimMs (single_table three_flag_query))
           0 1 false sim_closed sim_closed three_flag_query 1 3
           eq_refl eq_refl).
  discriminate.
Defined.

Lemma flag_shape_checked_only_when_applied_witness :
  wf_visibilities 1 3 misflagged_query = true /\
  get_scatter_datadescid (tool := SimMs (single_table misflagged_query))
                         0 1 true sim_closed
  = (Raise mask_error, sim_closed) /\
  get_scatter_datadescid (tool := SimMs (single_table misflagged_query))
                         0 1 false sim_closed
  = (Ret (Arr2 (spec_scatter 1 misflagged_query 0),
          Arr2 (spec_scatter 1 misflagged_query 1)), sim_closed).
Proof.
  split; [reflexivity|].
  apply (flag_shape_checked_only_when_applied
           (tool := SimMs (single_table misflagged_query))
           0 1 sim_closed sim_closed misflagged_query 1 3
           [ [false; false; false] ] [ [false; false] ]
           eq_refl eq_refl eq_refl eq_refl).
Defined.

Lemma store_failure_skips_release_witness :
  ms_open (MsTool := SimMs example_table) fname sim_closed
  = (Ret tt, {| sim_opened := true; sim_selected := None |}) /\
  get_scatter_datadescid (tool := SimMs example_table) 1 1 true sim_closed
  = (Raise (Exn RuntimeError "selectinit failed"),
     {| sim_opened := true; sim_selected := None |}).
Proof.
  split; [reflexivity|].
  destruct (store_failure_skips_release (tool := SimMs example_table)
              1 1 true sim_closed _ eq_refl) as [Hsel _].
  apply Hsel. reflexivity.
Defined.

Lemma successive_plots_keep_their_titles_witness :
  exists fig1 fig2,
    (exec plot_histogram_datadescid (tool := SimMs example_table)
            0 1 false false;
     plot_histogram_datadescid (tool := SimMs example_table)
       0 1 true true)%prog empty_world
    = (Ret tt, {| w_ms := sim_closed; w_figures := [fig1; fig2] |}) /\
    fig_suptitle fig1 = Some "DATA_DESC_ID: 0"%string /\
    fig_suptitle fig2 = Some "DATA_DESC_ID: 0"%string.
Proof.
  destruct (successive_plots_keep_their_titles
              (tool := SimMs example_table)
              0 0 1 1 false true false true empty_world _ _ _ _ _ _
              (example_call false) (example_call true))
    as (fig1 & fig2 & P & S1 & S2 & _).
  exists fig1, fig2. repeat split; assumption.
Defined.

Lemma noise_estimate_positive_witness :
  0 < 1 /\
  forall row s,
    In row (sigma_of (q_weight example_query) 1) -> In s row -> 0 < s.
Proof.
  split; [lra|].
  apply (noise_estimate_positive (q_weight example_query) 1
           example_weights_positive).
  lra.
Defined.

Lemma rescale_sqrt2_is_halving_weights_witness :
  scatter_of_query
    (with_weight example_query
       (map (map (fun w => w / 2)) (q_weight example_query))) 1 true
  = scatter_of_query example_query (sqrt 2) true.
Proof.
  apply (rescale_sqrt2_is_halving_weights example_query true
           example_weights_positive).
Defined.

Lemma perfect_model_gives_zero_scatter_witness :
  wf_query 1 3 perfect_query = true /\
  q_model_data perfect_query = q_data perfect_query /\
  exists a b,
    get_scatter_datadescid (tool := SimMs (single_table perfect_query))
                           0 1 true sim_closed
    = (Ret (a, b), sim_closed) /\
    Forall (fun z => z = RtoC 0) (flatten a) /\
    Forall (fun z => z = RtoC 0) (flatten b).
Proof.
  split; [reflexivity|]. split; [reflexivity|].
  apply (perfect_model_gives_zero_scatter
           (tool := SimMs (single_table perfect_query))
           0 1 true sim_closed sim_closed perfect_query 1 3
           eq_refl eq_refl eq_refl example_weights_positive).
  lra.
Defined.

End FurtherInstances.
